(** * SmartThings API client (lib/SmartThings.js): model and properties

    The development embeds the client class of the plugin: the JSON values
    it reads, the status cache, the axios-retry configuration, the 401
    interceptor with its queue of waiters, and the device operations built
    on top of them.  Asynchronous code is modelled as an event-driven
    machine: a call or a network answer is one event, handled atomically,
    exactly as one turn of the JavaScript event loop. *)

From Stdlib Require Import ZArith String Ascii List Lia Bool.
From stdpp Require Import base decidable option list strings pretty gmap.

Set Warnings "-register-all".
Open Scope string_scope.
Open Scope Z_scope.

(** ** JavaScript values

    Payloads are JSON documents, so a value is a JSON value or [undefined].
    Numbers are represented by integers.  Property reads see own properties
    only: array indices and [length], string indices and [length], and the
    members of an object literal (members inherited from the built-in
    prototypes are outside the model). *)

Module Js.

Inductive value : Type :=
| VUndefined
| VNull
| VBool (b : bool)
| VNum (n : Z)
| VStr (s : string)
| VArr (items : list value)
| VObj (members : list (string * value)).

(** ToBoolean *)
Definition truthy (v : value) : bool :=
  match v with
  | VUndefined | VNull => false
  | VBool b => b
  | VNum n => negb (Z.eqb n 0)
  | VStr s => negb (String.eqb s "")
  | VArr _ | VObj _ => true
  end.

(** [v == null] *)
Definition nullish (v : value) : bool :=
  match v with
  | VUndefined | VNull => true
  | _ => false
  end.

(** [a || b] *)
Definition or_else (a b : value) : value := if truthy a then a else b.

Fixpoint assoc (k : string) (ms : list (string * value)) : value :=
  match ms with
  | [] => VUndefined
  | (k', v) :: rest => if String.eqb k' k then v else assoc k rest
  end.

(** The canonical decimal spelling of an array index. *)
Definition index_name (i : nat) : string := pretty (N.of_nat i).

Fixpoint at_index {A} (k : string) (i : nat) (l : list A) : option A :=
  match l with
  | [] => None
  | x :: rest => if String.eqb (index_name i) k then Some x else at_index k (S i) rest
  end.

Fixpoint chars (s : string) : list string :=
  match s with
  | EmptyString => []
  | String c r => String c EmptyString :: chars r
  end.

(** [v[k]]: [None] is the TypeError raised on [null] and [undefined]. *)
Definition get (v : value) (k : string) : option value :=
  match v with
  | VUndefined | VNull => None
  | VBool _ | VNum _ => Some VUndefined
  | VStr s =>
      if String.eqb k "length" then Some (VNum (Z.of_nat (String.length s)))
      else Some (default VUndefined (VStr <$> at_index k 0 (chars s)))
  | VArr l =>
      if String.eqb k "length" then Some (VNum (Z.of_nat (List.length l)))
      else Some (default VUndefined (at_index k 0 l))
  | VObj ms => Some (assoc k ms)
  end.

(** [v?.[k]] *)
Definition opt_get (v : value) (k : string) : value :=
  default VUndefined (get v k).

(** [s.split(sep)] for a one-character separator. *)
Fixpoint split (sep : ascii) (s : string) : list string :=
  match s with
  | EmptyString => [EmptyString]
  | String c r =>
      if Ascii.eqb c sep then EmptyString :: split sep r
      else match split sep r with
           | h :: t => String c h :: t
           | [] => [String c EmptyString]
           end
  end.

(** [a.pop()] on an array of strings, as an expression. *)
Definition pop (l : list string) : string := List.last l EmptyString.

End Js.
Export Js.

(** ** Errors and results *)

Inductive Error : Type :=
| EAxios (status : option Z) (code : string)  (* error.response?.status, error.code *)
| ENoRefreshToken                             (* thrown by refreshToken without a refresh token *)
| EWriteFile                                  (* fs.writeFile rejected *)
| ETypeError                                  (* member read on null or undefined *)
| EStatusFailed (deviceId : string)           (* the error getStatus substitutes *)
| EInitialTokens.                             (* the error getInitialTokens substitutes *)

Inductive Result (A : Type) : Type :=
| Ok (a : A)
| Err (e : Error).
Arguments Ok {A} a.
Arguments Err {A} e.

(** ** Reading a capability value out of a snapshot *)

(** [res.data?.components?.main || {}] *)
Definition status_snapshot (data : value) : value :=
  or_else (opt_get (opt_get data "components") "main") (VObj []).

#[global] Instance Result_ret : MRet Result := fun _ a => Ok a.
#[global] Instance Result_bind : MBind Result := fun _ _ f r =>
  match r with
  | Ok a => f a
  | Err e => Err e
  end.

(** [v[k]] as a computation that may throw. *)
Definition member (v : value) (k : string) : Result value :=
  match get v k with
  | Some x => Ok x
  | None => Err ETypeError
  end.

(** The body of [_getCap] after [await this.getStatus(deviceId)]. *)
Definition getCap_of (s : value) (capability attribute : string) (def : value)
  : Result value :=
  let shortKey := pop (split "." capability) in
  a ← member s shortKey;
  obj ← (if truthy a then Ok a else member s capability);
  let v := opt_get (opt_get obj attribute) "value" in
  Ok (if nullish v then def else v).

(** [_getCap]: a rejected [getStatus] rejects the read. *)
Definition _getCap (status : Result value) (capability attribute : string)
  (def : value) : Result value :=
  s ← status; getCap_of s capability attribute def.

(** The getters built on [_getCap]. *)
Definition strict_eq_str (r : Result value) (s : string) : Result bool :=
  v ← r; Ok (match v with VStr s' => String.eqb s' s | _ => false end).

Definition getPower (status : Result value) : Result bool :=
  strict_eq_str (_getCap status "switch" "switch" (VStr "off")) "on".

Definition getWindFree (status : Result value) : Result bool :=
  strict_eq_str
    (_getCap status "custom.airConditionerOptionalMode" "acOptionalMode" (VStr "off"))
    "windFree".

Definition getAutoClean (status : Result value) : Result bool :=
  strict_eq_str
    (_getCap status "custom.autoCleaningMode" "autoCleaningMode" (VStr "off")) "on".

(** ** The status cache

    [new LRUCache({ max, ttl })] of the lru-cache package, which is not part
    of the repository: a bounded store ordered by recency of use, most
    recent first.  [get] drops an entry whose age exceeds the time to live
    and otherwise moves the entry to the front; [set] stamps the entry with
    the current time and, when the store is full, discards the entry at the
    back. *)

Module LRU.

Record entry : Type := Entry { key : string; val : value; start : Z }.

Section ops.
Variable max : nat.
Variable ttl : Z.

Definition isStale (now : Z) (e : entry) : bool := bool_decide (ttl < now - start e).

Definition find (k : string) (l : list entry) : option entry :=
  List.find (fun e => String.eqb (key e) k) l.

Definition remove (k : string) (l : list entry) : list entry :=
  List.filter (fun e => negb (String.eqb (key e) k)) l.

Definition get (now : Z) (k : string) (l : list entry) : list entry * value :=
  match find k l with
  | None => (l, VUndefined)
  | Some e =>
      if isStale now e then (remove k l, VUndefined)
      else (e :: remove k l, val e)
  end.

Definition set (now : Z) (k : string) (v : value) (l : list entry) : list entry :=
  match find k l with
  | Some _ => Entry k v now :: remove k l
  | None =>
      Entry k v now
        :: (if bool_decide (max ≤ List.length l)%nat then List.removelast l else l)
  end.

Definition delete (k : string) (l : list entry) : list entry := remove k l.
End ops.

End LRU.

(** ** Requests, answers and observable effects *)

Inductive Method : Type := GET | POST.

Inductive Endpoint : Type :=
| Devices                                                (* GET /devices *)
| DeviceStatus (deviceId : string)                       (* GET /devices/{id}/status *)
| DeviceCommands (deviceId : string) (commands : value). (* POST /devices/{id}/commands *)

Definition method (ep : Endpoint) : Method :=
  match ep with
  | DeviceCommands _ _ => POST
  | _ => GET
  end.

(** [`Bearer ${token}`] *)
Inductive Header : Type := Bearer (token : value).

(** The request configuration object that travels with a request: the
    header set by the interceptors, the [_retry] mark of the 401 handler
    and the retry counter axios-retry keeps in it. *)
Record Config : Type := mkConfig {
  endpoint : Endpoint;
  Authorization : option Header;
  _retry : bool;
  retryCount : nat
}.

Definition set_Authorization (h : option Header) (c : Config) : Config :=
  mkConfig (endpoint c) h (_retry c) (retryCount c).
Definition set__retry (b : bool) (c : Config) : Config :=
  mkConfig (endpoint c) (Authorization c) b (retryCount c).
Definition set_retryCount (n : nat) (c : Config) : Config :=
  mkConfig (endpoint c) (Authorization c) (_retry c) n.

(** What the network answers: a 2xx body, or a failure with the response
    status (absent when no response arrived) and the error code. *)
Inductive HttpResult : Type :=
| HOk (data : value)
| HFail (status : option Z) (code : string).

(** The method that awaits a request. *)
Inductive Cont : Type :=
| KDevices
| KStatus (deviceId : string)
| KCommand (deviceId : string).

(** The log statements of the class, one constructor per call site. *)
Inductive LogSite : Type :=
| RetryNotice (n : nat)
| RefreshFailedReauth
| TokensLoaded
| NoStoredTokens
| InitialTokensFailed
| RefreshFailed
| TokensSaved
| DevicesFailed
| StatusFailed (deviceId : string)
| CommandSent (deviceId : string)
| CommandFailed (deviceId : string).

Inductive Effect : Type :=
| NetSend (rid : nat) (cfg : Config)          (* an API request goes out *)
| Backoff (rid : nat) (n : nat) (delay : Z)   (* axios-retry waits before retry n *)
| NetRefresh (refresh_token : value)          (* POST oauth/token, grant refresh_token *)
| NetExchange (code : string)                 (* POST oauth/token, grant authorization_code *)
| FileWrite (tokens : value)                  (* fs.writeFile of the token file *)
| ClientSettle (rid : nat) (r : Result value) (* the promise of this.client(...) settles *)
| Settle (pid : nat) (r : Result value)       (* the promise handed to the caller settles *)
| Log (site : LogSite).

(** A request suspended in the 401 handler: its promise, the [original]
    configuration it closes over, and who awaits it. *)
Definition Waiter : Type := nat * Config * Cont.

(** ** The client object *)

Definition cache_max : nat := 100.
Definition cache_ttl : Z := 5 * 1000.

Record State : Type := mkState {
  tokens : value;
  isRefreshing : bool;
  pendingRequests : list Waiter;
  refresher : option Waiter;               (* the handler suspended at [await this.refreshToken()] *)
  cache : list LRU.entry;
  statusPromises : gmap string nat;
  inflight : gmap nat (Config * Cont);     (* requests sent and not yet answered *)
  next_id : nat;
  now : Z;
  trace : list Effect                      (* newest first *)
}.

Definition set_tokens (x : value) (s : State) : State :=
  mkState x (isRefreshing s) (pendingRequests s) (refresher s) (cache s)
    (statusPromises s) (inflight s) (next_id s) (now s) (trace s).
Definition set_isRefreshing (x : bool) (s : State) : State :=
  mkState (tokens s) x (pendingRequests s) (refresher s) (cache s)
    (statusPromises s) (inflight s) (next_id s) (now s) (trace s).
Definition set_pendingRequests (x : list Waiter) (s : State) : State :=
  mkState (tokens s) (isRefreshing s) x (refresher s) (cache s)
    (statusPromises s) (inflight s) (next_id s) (now s) (trace s).
Definition set_refresher (x : option Waiter) (s : State) : State :=
  mkState (tokens s) (isRefreshing s) (pendingRequests s) x (cache s)
    (statusPromises s) (inflight s) (next_id s) (now s) (trace s).
Definition set_cache (x : list LRU.entry) (s : State) : State :=
  mkState (tokens s) (isRefreshing s) (pendingRequests s) (refresher s) x
    (statusPromises s) (inflight s) (next_id s) (now s) (trace s).
Definition set_statusPromises (x : gmap string nat) (s : State) : State :=
  mkState (tokens s) (isRefreshing s) (pendingRequests s) (refresher s) (cache s)
    x (inflight s) (next_id s) (now s) (trace s).
Definition set_inflight (x : gmap nat (Config * Cont)) (s : State) : State :=
  mkState (tokens s) (isRefreshing s) (pendingRequests s) (refresher s) (cache s)
    (statusPromises s) x (next_id s) (now s) (trace s).
Definition set_next_id (x : nat) (s : State) : State :=
  mkState (tokens s) (isRefreshing s) (pendingRequests s) (refresher s) (cache s)
    (statusPromises s) (inflight s) x (now s) (trace s).
Definition set_now (x : Z) (s : State) : State :=
  mkState (tokens s) (isRefreshing s) (pendingRequests s) (refresher s) (cache s)
    (statusPromises s) (inflight s) (next_id s) x (trace s).
Definition emit (e : Effect) (s : State) : State :=
  mkState (tokens s) (isRefreshing s) (pendingRequests s) (refresher s) (cache s)
    (statusPromises s) (inflight s) (next_id s) (now s) (e :: trace s).

(** The object the constructor builds. *)
Definition initial : State :=
  mkState VNull false [] None [] ∅ ∅ 0 0 [].

Definition cache_key (deviceId : string) : string := String.append "status-" deviceId.

(** ** The retry policy handed to axios-retry

    The axios-retry package is not part of the repository.  Its loop (a
    failed request is sent again while fewer than [retries] retries were
    made and [retryCondition] holds; [retryDelay] receives the number of
    the retry, from 1) and the predicates it exports follow the package's
    documented behaviour. *)

Definition retries : nat := 3.

(** [retryDelay: (n) => n * 1000] *)
Definition retryDelay (n : nat) : Z := Z.of_nat n * 1000.

Definition in_codes (code : string) (l : list string) : bool :=
  existsb (String.eqb code) l.

Section Client.

(** The verdict of the is-retry-allowed package on an error code; the
    package is a dependency of axios-retry and not part of the repository. *)
Variable isRetryAllowed : string -> bool.

(** The predicates exported by axios-retry, on [error.response?.status],
    [error.code] and the request method. *)
Definition isNetworkError (status : option Z) (code : string) : bool :=
  match status with
  | Some _ => false
  | None =>
      negb (String.eqb code "")
      && negb (in_codes code ["ERR_CANCELED"; "ECONNABORTED"])
      && isRetryAllowed code
  end.

Definition isRetryableError (status : option Z) (code : string) : bool :=
  negb (String.eqb code "ECONNABORTED")
  && match status with
     | None => true
     | Some s => (500 <=? s) && (s <=? 599)
     end.

Definition isIdempotentRequestError (m : Method) (status : option Z) (code : string)
  : bool :=
  isRetryableError status code
  && match m with GET => true | POST => false end. (* GET is idempotent, POST is not *)

Definition isNetworkOrIdempotentRequestError (m : Method) (status : option Z)
  (code : string) : bool :=
  isNetworkError status code || isIdempotentRequestError m status code.

(** [retryCondition]: the library predicate, or status 429, or 5xx. *)
Definition retryCondition (cfg : Config) (status : option Z) (code : string) : bool :=
  isNetworkOrIdempotentRequestError (method (endpoint cfg)) status code
  || bool_decide (status = Some 429)
  || match status with
     | Some s => (500 <=? s) && (s <? 600)
     | None => false
     end.

(** ** The request pipeline *)

(** The request interceptor: inject the current access token. *)
Definition inject (toks : value) (cfg : Config) : Config :=
  let t := opt_get toks "access_token" in
  if truthy t then set_Authorization (Some (Bearer t)) cfg else cfg.

(** [this.client(cfg)]: the request goes out and awaits its answer. *)
Definition client (rid : nat) (cfg : Config) (k : Cont) (st : State) : State :=
  let cfg' := inject (tokens st) cfg in
  emit (NetSend rid cfg') (set_inflight (<[rid := (cfg', k)]> (inflight st)) st).

(** The promise of [this.client(...)] settles and the awaiting method
    resumes: [getDevices], the [then]/[catch]/[finally] chain of
    [getStatus], or [sendCommand]. *)
Definition settle (rid : nat) (k : Cont) (r : Result value) (st : State) : State :=
  let st := emit (ClientSettle rid r) st in
  match k with
  | KDevices =>
      match data ← r; member data "items" with
      | Ok items => emit (Settle rid (Ok (or_else items (VArr [])))) st
      | Err e => emit (Settle rid (Err e)) (emit (Log DevicesFailed) st)
      end
  | KStatus deviceId =>
      let st :=
        match r with
        | Ok body =>
            let data := status_snapshot body in
            let st :=
              set_cache
                (LRU.set cache_max (now st) (cache_key deviceId) data (cache st)) st in
            emit (Settle rid (Ok data)) st
        | Err _ =>
            emit (Settle rid (Err (EStatusFailed deviceId)))
              (emit (Log (StatusFailed deviceId)) st)
        end in
      set_statusPromises (delete deviceId (statusPromises st)) st
  | KCommand deviceId =>
      match r with
      | Ok _ => emit (Settle rid (Ok VUndefined)) (emit (Log (CommandSent deviceId)) st)
      | Err e => emit (Settle rid (Err e)) (emit (Log (CommandFailed deviceId)) st)
      end
  end.

(** [w.resolve(newAccess)]: replay the waiter's request with the new token. *)
Definition resolve_waiter (newAccess : value) (st : State) (w : Waiter) : State :=
  let '(rid, original, k) := w in
  client rid (set_Authorization (Some (Bearer newAccess)) original) k st.

(** [w.reject(err)] *)
Definition reject_waiter (err : Error) (st : State) (w : Waiter) : State :=
  let '(rid, _, k) := w in settle rid k (Err err) st.

Definition _flushWaiters (err : option Error) (token : value) (st : State) : State :=
  let st :=
    fold_left
      (fun s w =>
         match err with
         | Some e => reject_waiter e s w
         | None => resolve_waiter token s w
         end)
      (pendingRequests st) st in
  set_pendingRequests [] st.

(** ** Tokens *)

(** [_saveTokens]: replace the tokens in memory, then write the file. *)
Definition _saveTokens (toks : value) (write_ok : bool) (st : State)
  : State * Result unit :=
  let st := emit (FileWrite toks) (set_tokens toks st) in
  if write_ok then (emit (Log TokensSaved) st, Ok tt) else (st, Err EWriteFile).

(** [refreshToken] up to its network call: [false] when it throws for
    want of a refresh token. *)
Definition refreshToken_start (st : State) : State * bool :=
  let rt := opt_get (tokens st) "refresh_token" in
  if negb (truthy rt) then (st, false) else (emit (NetRefresh rt) st, true).

(** [refreshToken] from the answer of the token endpoint on. *)
Definition refreshToken_finish (r : HttpResult) (write_ok : bool) (st : State)
  : State * Result value :=
  let '(st, res) :=
    match r with
    | HOk data =>
        let '(st, saved) := _saveTokens data write_ok st in
        (st, _ ← saved; member (tokens st) "access_token")
    | HFail status code => (st, Err (EAxios status code))
    end in
  match res with
  | Ok a => (st, Ok a)
  | Err e => (emit (Log RefreshFailed) st, Err e)
  end.

(** [init]: load the stored tokens; [None] is a missing or unparsable file. *)
Definition init (file : option value) (st : State) : State * bool :=
  match file with
  | Some toks => (emit (Log TokensLoaded) (set_tokens toks st), true)
  | None => (emit (Log NoStoredTokens) st, false)
  end.

(** [getInitialTokens], with the answer of the token endpoint. *)
Definition getInitialTokens (code : string) (r : HttpResult) (write_ok : bool)
  (st : State) : State * Result unit :=
  let st := emit (NetExchange code) st in
  let '(st, res) :=
    match r with
    | HOk data => _saveTokens data write_ok st
    | HFail status c => (st, Err (EAxios status c))
    end in
  match res with
  | Ok _ => (st, Ok tt)
  | Err _ => (emit (Log InitialTokensFailed) st, Err EInitialTokens)
  end.

(** ** The 401 handler *)

(** The [try] branch after [await this.refreshToken()] returned. *)
Definition refresh_succeeded (me : Waiter) (newAccess : value) (st : State) : State :=
  let st := set_isRefreshing false st in
  let st := _flushWaiters None newAccess st in
  resolve_waiter newAccess st me.

(** The [catch] branch. *)
Definition refresh_failed (me : Waiter) (e : Error) (st : State) : State :=
  let st := set_isRefreshing false st in
  let st := _flushWaiters (Some e) VNull st in
  let st := emit (Log RefreshFailedReauth) st in
  reject_waiter e st me.

(** The response error handler registered by [_setupInterceptors]. *)
Definition on_rejected (rid : nat) (cfg : Config) (k : Cont) (status : option Z)
  (code : string) (st : State) : State :=
  if bool_decide (status = Some 401) && negb (_retry cfg) then
    let original := set__retry true cfg in
    if negb (isRefreshing st) then
      let st := set_isRefreshing true st in
      match refreshToken_start st with
      | (st, true) => set_refresher (Some (rid, original, k)) st
      | (st, false) => refresh_failed (rid, original, k) ENoRefreshToken st
      end
    else set_pendingRequests (pendingRequests st ++ [(rid, original, k)])%list st
  else settle rid k (Err (EAxios status code)) st.

(** The token endpoint answers the outstanding refresh; the answer and
    the outcome of the file write that follows it are taken in one step. *)
Definition on_refresh_response (r : HttpResult) (write_ok : bool) (st : State) : State :=
  match refresher st with
  | None => st
  | Some me =>
      let st := set_refresher None st in
      match refreshToken_finish r write_ok st with
      | (st, Ok newAccess) => refresh_succeeded me newAccess st
      | (st, Err e) => refresh_failed me e st
      end
  end.

(** The API answers request [rid]: axios-retry decides first, then the
    401 handler.  The wait before a retry is recorded, not simulated. *)
Definition on_response (rid : nat) (r : HttpResult) (st : State) : State :=
  match inflight st !! rid with
  | None => st
  | Some (cfg, k) =>
      let st := set_inflight (delete rid (inflight st)) st in
      match r with
      | HOk data => settle rid k (Ok data) st
      | HFail status code =>
          if bool_decide (retryCount cfg < retries)%nat && retryCondition cfg status code
          then
            let n := S (retryCount cfg) in
            let st := emit (Backoff rid n (retryDelay n)) (emit (Log (RetryNotice n)) st) in
            client rid (set_retryCount n cfg) k st
          else on_rejected rid cfg k status code st
      end
  end.

(** ** Device operations *)

Definition new_request (ep : Endpoint) : Config := mkConfig ep None false 0.

Definition getDevices (st : State) : State * nat :=
  let rid := next_id st in
  (client rid (new_request Devices) KDevices (set_next_id (S rid) st), rid).

(** What [getStatus] hands back: the cached snapshot, or a promise. *)
Inductive StatusReply : Type :=
| Cached (snapshot : value)
| Pending (pid : nat).

Definition getStatus (deviceId : string) (st : State) : State * StatusReply :=
  let '(c, cached) := LRU.get cache_ttl (now st) (cache_key deviceId) (cache st) in
  let st := set_cache c st in
  if truthy cached then (st, Cached cached)
  else
    match statusPromises st !! deviceId with
    | Some p => (st, Pending p)
    | None =>
        let rid := next_id st in
        let st :=
          client rid (new_request (DeviceStatus deviceId)) (KStatus deviceId)
            (set_next_id (S rid) st) in
        (set_statusPromises (<[deviceId := rid]> (statusPromises st)) st, Pending rid)
    end.

Definition sendCommand (deviceId : string) (command : value) (st : State)
  : State * nat :=
  let commands := match command with VArr _ => command | _ => VArr [command] end in
  let st := set_cache (LRU.delete (cache_key deviceId) (cache st)) st in
  let rid := next_id st in
  (client rid (new_request (DeviceCommands deviceId commands)) (KCommand deviceId)
     (set_next_id (S rid) st), rid).

(** ** Events *)

Inductive Event : Type :=
| Init (file : option value)
| InitialTokens (code : string) (r : HttpResult) (write_ok : bool)
| CallGetDevices
| CallGetStatus (deviceId : string)
| CallSendCommand (deviceId : string) (command : value)
| Response (rid : nat) (r : HttpResult)
| RefreshResponse (r : HttpResult) (write_ok : bool)
| Tick (ms : N).

Definition step (st : State) (ev : Event) : State :=
  match ev with
  | Init file => fst (init file st)
  | InitialTokens code r w => fst (getInitialTokens code r w st)
  | CallGetDevices => fst (getDevices st)
  | CallGetStatus deviceId => fst (getStatus deviceId st)
  | CallSendCommand deviceId command => fst (sendCommand deviceId command st)
  | Response rid r => on_response rid r st
  | RefreshResponse r w => on_refresh_response r w st
  | Tick ms => set_now (now st + Z.of_N ms) st
  end.

Definition run (st : State) (evs : list Event) : State := fold_left step evs st.

End Client.

(** ** Notions used in the statements *)

(** The capability object [_getCap] selects: [s[shortKey] || s[capability]]. *)
Definition capability_object (s : value) (capability : string) : value :=
  or_else (opt_get s (pop (split "." capability))) (opt_get s capability).


Definition is_send (e : Effect) : bool :=
  match e with NetSend _ _ => true | _ => false end.
Definition is_refresh (e : Effect) : bool :=
  match e with NetRefresh _ => true | _ => false end.

(** Number of API requests sent, and of refresh calls made. *)
Definition sends (t : list Effect) : nat := List.length (List.filter is_send t).
Definition refreshes (t : list Effect) : nat := List.length (List.filter is_refresh t).

(** The delays axios-retry waited, newest first. *)
Fixpoint backoffs (t : list Effect) : list Z :=
  match t with
  | [] => []
  | Backoff _ _ d :: t' => d :: backoffs t'
  | _ :: t' => backoffs t'
  end.

(** Tokens as the token endpoint returns them. *)
Definition credential (access refresh : string) : value :=
  VObj [("access_token", VStr access); ("refresh_token", VStr refresh)].

(** The client after [init] loaded a stored credential A1/R1. *)
Definition authenticated : State := fst (init (Some (credential "A1" "R1")) initial).

Definition rid_of (w : Waiter) : nat := fst (fst w).
Definition cfg_of (w : Waiter) : Config := snd (fst w).
Definition cont_of (w : Waiter) : Cont := snd w.

(** The configuration a request is replayed with. *)
Definition replayed (toks newAccess : value) (cfg : Config) : Config :=
  inject toks (set_Authorization (Some (Bearer newAccess)) cfg).

(** What [refreshToken] returns for an answer of the token endpoint and an
    outcome of the file write. *)
Definition refresh_outcome (r : HttpResult) (write_ok : bool) : Result value :=
  match r with
  | HOk data => if write_ok then member data "access_token" else Err EWriteFile
  | HFail status code => Err (EAxios status code)
  end.




(** [st'] differs from [st] in nothing the coordinator owns. *)
Definition same_coordinator (st st' : State) : Prop :=
  isRefreshing st' = isRefreshing st
  /\ refresher st' = refresher st
  /\ pendingRequests st' = pendingRequests st
  /\ refreshes (trace st') = refreshes (trace st).


Definition e401 : HttpResult := HFail (Some 401) "ERR_BAD_REQUEST".


Definition switch_on : value :=
  VObj [("component", VStr "main"); ("capability", VStr "switch");
        ("command", VStr "on")].


Definition cache_bounded (st : State) : Prop :=
  (List.length (cache st) <= cache_max)%nat.

Definition dev (i : nat) : string := String.append "ac" (index_name i).

(** Device [i] is read, answered and cached; then a millisecond passes. *)
Definition fetch_one (i : nat) : list Event :=
  [CallGetStatus (dev i); Response i (HOk (VObj [])); Tick 1%N].

(** A hundred devices cached one after the other, "ac0" first. *)
Definition hundred_cached : State :=
  run (fun _ => true) authenticated (Tick 1000%N :: flat_map fetch_one (seq 0 100)).

(** Then "ac0" is read again, and a further device is fetched. *)
Definition hundred_and_one : State :=
  run (fun _ => true) hundred_cached
    [CallGetStatus (dev 0); CallGetStatus (dev 100); Response 100%nat (HOk (VObj []))].

(** A snapshot cached at time 1000 and left alone for six seconds. *)
Definition stale_cached : State :=
  run (fun _ => true) authenticated
    [Tick 1000%N; CallGetStatus "ac1"; Response 0%nat (HOk (VObj [])); Tick 6000%N].

(** Then a read that found it expired and is still waiting for its answer. *)
Definition stale_read_pending : State :=
  run (fun _ => true) stale_cached [CallGetStatus "ac1"].

(** ** Setters

    The command objects the setters build, and the setters themselves. *)

Definition setPower_command (on : value) : value :=
  VObj [("component", VStr "main"); ("capability", VStr "switch");
        ("command", VStr (if truthy on then "on" else "off"))].

Definition setMode_command (mode : value) : value :=
  VObj [("component", VStr "main"); ("capability", VStr "airConditionerMode");
        ("command", VStr "setAirConditionerMode"); ("arguments", VArr [mode])].

Definition setTemperature_command (v : value) : value :=
  VObj [("component", VStr "main"); ("capability", VStr "thermostatCoolingSetpoint");
        ("command", VStr "setCoolingSetpoint"); ("arguments", VArr [v])].

Definition setWindFree_command (enable : value) : value :=
  VObj [("component", VStr "main");
        ("capability", VStr "custom.airConditionerOptionalMode");
        ("command", VStr "setAcOptionalMode");
        ("arguments", VArr [VStr (if truthy enable then "windFree" else "off")])].

Definition setAutoClean_command (enable : value) : value :=
  VObj [("component", VStr "main"); ("capability", VStr "custom.autoCleaningMode");
        ("command", VStr "setAutoCleaningMode");
        ("arguments", VArr [VStr (if truthy enable then "on" else "off")])].

Definition setPower (deviceId : string) (on : value) (st : State) : State * nat :=
  sendCommand deviceId (setPower_command on) st.
Definition setMode (deviceId : string) (mode : value) (st : State) : State * nat :=
  sendCommand deviceId (setMode_command mode) st.
Definition setTemperature (deviceId : string) (v : value) (st : State) : State * nat :=
  sendCommand deviceId (setTemperature_command v) st.
Definition setWindFree (deviceId : string) (enable : value) (st : State) : State * nat :=
  sendCommand deviceId (setWindFree_command enable) st.
Definition setAutoClean (deviceId : string) (enable : value) (st : State) : State * nat :=
  sendCommand deviceId (setAutoClean_command enable) st.

(** ** Notions used in the further properties *)





(** The status entry a settled request leaves behind. *)
Definition promises_after (k : Cont) (sp : gmap string nat) : gmap string nat :=
  match k with
  | KStatus deviceId => delete deviceId sp
  | _ => sp
  end.



(** What the operations of the client do to the cache. *)
Inductive cache_ops : list LRU.entry -> list LRU.entry -> Prop :=
| co_refl l : cache_ops l l
| co_get t k l l' :
    cache_ops l l' -> cache_ops l (fst (LRU.get cache_ttl t k l'))
| co_set t deviceId body l l' :
    cache_ops l l' ->
    cache_ops l (LRU.set cache_max t (cache_key deviceId) (status_snapshot body) l')
| co_delete deviceId l l' :
    cache_ops l l' -> cache_ops l (LRU.delete (cache_key deviceId) l').

(** Every entry holds a truthy snapshot under the key of a device, and no
    key occurs twice. *)
Definition cache_wf (l : list LRU.entry) : Prop :=
  Forall (fun e => truthy (LRU.val e) = true
                   /\ exists deviceId, LRU.key e = cache_key deviceId) l
  /\ NoDup (List.map LRU.key l).

(** A request that goes out while an access token is held carries it. *)
Definition carries (toks : value) (e : Effect) : Prop :=
  match e with
  | NetSend _ cfg =>
      truthy (opt_get toks "access_token") = true ->
      Authorization cfg = Some (Bearer (opt_get toks "access_token"))
  | _ => True
  end.

(** ** Live requests: notions *)




(** ** Traces: notions *)

(** [st'] extends the trace of [st] with effects that satisfy [P]. *)
Definition extends_with (P : Effect -> Prop) (st st' : State) : Prop :=
  exists new, trace st' = (new ++ trace st)%list /\ List.Forall P new.

Definition silent (e : Effect) : Prop := is_send e = false.

(** ** The HomeKit bindings of index.js (setupHeaterCoolerService) *)

(** [value === 1] *)
Definition is_one (value : value) : bool :=
  match value with VNum 1 => true | _ => false end.

(** [p ? 1 : 0] after a getter of the client. *)
Definition as_flag (r : Result bool) : Result Z := p ← r; Ok (if (p : bool) then 1 else 0).

(** Characteristic.Active *)
Definition Active_getter (status : Result value) : Result Z := as_flag (getPower status).
Definition Active_setter (deviceId : string) (value : value) (st : State) : State * nat :=
  setPower deviceId (VBool (is_one value)) st.

(** Characteristic.CurrentHeaterCoolerState, with the two constants of the
    HomeKit library it chooses between. *)
Definition CurrentHeaterCoolerState_getter (INACTIVE COOLING : Z) (status : Result value)
  : Result Z :=
  p ← getPower status; Ok (if negb p then INACTIVE else COOLING).

(** Characteristic.SwingMode, bound to wind-free. *)
Definition SwingMode_getter (status : Result value) : Result Z :=
  as_flag (getWindFree status).
Definition SwingMode_setter (deviceId : string) (value : value) (st : State)
  : State * nat :=
  setWindFree deviceId (VBool (is_one value)) st.

(** Characteristic.LockPhysicalControls, bound to auto-clean. *)
Definition LockPhysicalControls_getter (status : Result value) : Result Z :=
  as_flag (getAutoClean status).
Definition LockPhysicalControls_setter (deviceId : string) (value : value) (st : State)
  : State * nat :=
  setAutoClean deviceId (VBool (is_one value)) st.

(** The attribute value a snapshot holds for a capability. *)
Definition reported (body : value) (capability attribute : string) : value :=
  opt_get (opt_get (capability_object (status_snapshot body) capability) attribute) "value".

(** The body of the request [rid] posted in [st], if it is a command. *)
Definition posted (st : State) (rid : nat) : option value :=
  match inflight st !! rid with
  | Some (cfg, _) =>
      match endpoint cfg with
      | DeviceCommands _ commands => Some commands
      | _ => None
      end
  | None => None
  end.

(** ** Accounting for requests: notions *)






(** * Properties *)

(** ** Reading attributes *)

Lemma get_truthy s k : truthy s = true -> get s k = Some (opt_get s k).
Proof.
  unfold opt_get. destruct s; simpl; try discriminate; intros _; try reflexivity.
  - destruct (String.eqb k "length"); reflexivity.
  - destruct (String.eqb k "length"); reflexivity.
Qed.

Lemma member_truthy s k : truthy s = true -> member s k = Ok (opt_get s k).
Proof. intros H. unfold member. now rewrite (get_truthy s k H). Qed.

Lemma status_snapshot_truthy data : truthy (status_snapshot data) = true.
Proof.
  unfold status_snapshot, or_else.
  destruct (truthy (opt_get (opt_get data "components") "main")) eqn:E; auto.
Qed.

Lemma getCap_of_truthy s capability attribute def :
  truthy s = true ->
  getCap_of s capability attribute def =
  Ok (if nullish (opt_get (opt_get (capability_object s capability) attribute) "value")
      then def
      else opt_get (opt_get (capability_object s capability) attribute) "value").
Proof.
  intros H. unfold getCap_of, capability_object, or_else.
  rewrite !(member_truthy s) by exact H. cbn [mbind Result_bind].
  destruct (truthy (opt_get s (pop (split "." capability)))); reflexivity.
Qed.





(** ** The status cache and the snapshot *)









(** ** Simplifying projections of the state *)

Ltac proj :=
  cbn [tokens isRefreshing pendingRequests refresher cache statusPromises inflight
       next_id now trace emit set_tokens set_isRefreshing set_pendingRequests
       set_refresher set_cache set_statusPromises set_inflight set_next_id set_now
       fst snd].

Ltac proj_all :=
  cbn [tokens isRefreshing pendingRequests refresher cache statusPromises inflight
       next_id now trace emit set_tokens set_isRefreshing set_pendingRequests
       set_refresher set_cache set_statusPromises set_inflight set_next_id set_now
       fst snd] in *.

(** ** Frame lemmas for [client] and [settle] *)

Lemma inject_fields toks cfg :
  endpoint (inject toks cfg) = endpoint cfg
  /\ _retry (inject toks cfg) = _retry cfg
  /\ retryCount (inject toks cfg) = retryCount cfg.
Proof. unfold inject. destruct (truthy _); auto. Qed.

Lemma client_inflight rid cfg k st :
  inflight (client rid cfg k st) = <[rid := (inject (tokens st) cfg, k)]> (inflight st).
Proof. reflexivity. Qed.

Lemma client_trace rid cfg k st :
  trace (client rid cfg k st) = NetSend rid (inject (tokens st) cfg) :: trace st.
Proof. reflexivity. Qed.

Lemma client_frame rid cfg k st :
  tokens (client rid cfg k st) = tokens st
  /\ isRefreshing (client rid cfg k st) = isRefreshing st
  /\ pendingRequests (client rid cfg k st) = pendingRequests st
  /\ refresher (client rid cfg k st) = refresher st
  /\ cache (client rid cfg k st) = cache st
  /\ statusPromises (client rid cfg k st) = statusPromises st
  /\ next_id (client rid cfg k st) = next_id st
  /\ now (client rid cfg k st) = now st.
Proof. repeat split. Qed.

Lemma settle_frame rid k r st :
  tokens (settle rid k r st) = tokens st
  /\ isRefreshing (settle rid k r st) = isRefreshing st
  /\ pendingRequests (settle rid k r st) = pendingRequests st
  /\ refresher (settle rid k r st) = refresher st
  /\ inflight (settle rid k r st) = inflight st
  /\ next_id (settle rid k r st) = next_id st
  /\ now (settle rid k r st) = now st.
Proof.
  unfold settle. destruct k.
  - destruct (_ ≫= _); repeat split.
  - destruct r; repeat split.
  - destruct r; repeat split.
Qed.

(** [settle] only appends the settlement, the caller-visible outcome and
    log lines: nothing is sent. *)
Lemma settle_trace rid k r st :
  exists out,
    trace (settle rid k r st) = (out ++ ClientSettle rid r :: trace st)%list
    /\ sends out = 0%nat /\ refreshes out = 0%nat /\ backoffs out = [].
Proof.
  unfold settle. destruct k.
  - destruct (_ ≫= _).
    + eexists [_]. repeat split.
    + eexists [_; _]. repeat split.
  - destruct r.
    + eexists [_]. repeat split.
    + eexists [_; _]. repeat split.
  - destruct r.
    + eexists [_; _]. repeat split.
    + eexists [_; _]. repeat split.
Qed.

Lemma sends_app (a b : list Effect) : sends (a ++ b)%list = (sends a + sends b)%nat.
Proof. unfold sends. now rewrite List.filter_app, List.length_app. Qed.

Lemma refreshes_app (a b : list Effect) :
  refreshes (a ++ b)%list = (refreshes a + refreshes b)%nat.
Proof. unfold refreshes. now rewrite List.filter_app, List.length_app. Qed.

Lemma backoffs_app (a b : list Effect) :
  backoffs (a ++ b)%list = (backoffs a ++ backoffs b)%list.
Proof.
  induction a as [|e a IH]; [reflexivity|].
  destruct e; cbn [backoffs app]; now rewrite ?IH.
Qed.

Lemma settle_counts rid k r st :
  sends (trace (settle rid k r st)) = sends (trace st)
  /\ refreshes (trace (settle rid k r st)) = refreshes (trace st)
  /\ backoffs (trace (settle rid k r st)) = backoffs (trace st)
  /\ In (ClientSettle rid r) (trace (settle rid k r st)).
Proof.
  destruct (settle_trace rid k r st) as (out & -> & Hs & Hr & Hb).
  rewrite sends_app, refreshes_app, backoffs_app, Hs, Hr, Hb.
  repeat split. apply in_or_app. right. now left.
Qed.

(** ** Bounded retry *)



(** With a response in hand only 429 and 5xx are retried. *)
Lemma retryCondition_response lib cfg s code :
  retryCondition lib cfg (Some s) code = true -> s = 429 \/ 500 <= s < 600.
Proof.
  unfold retryCondition, isNetworkOrIdempotentRequestError, isNetworkError,
    isIdempotentRequestError, isRetryableError.
  intros H. apply orb_true_iff in H as [H|H]; [apply orb_true_iff in H as [H|H]|].
  - cbn [orb] in H. apply andb_true_iff in H as [H _].
    apply andb_true_iff in H as [_ H]. apply andb_true_iff in H as [H1 H2].
    apply Z.leb_le in H1. apply Z.leb_le in H2. right. lia.
  - apply bool_decide_eq_true in H. injection H as ->. now left.
  - apply andb_true_iff in H as [H1 H2].
    apply Z.leb_le in H1. apply Z.ltb_lt in H2. right. lia.
Qed.



(** No retry: the error reaches the 401 handler. *)
Lemma on_response_no_retry lib rid cfg k status code st :
  inflight st !! rid = Some (cfg, k) ->
  (retries <= retryCount cfg)%nat \/ retryCondition lib cfg status code = false ->
  on_response lib rid (HFail status code) st =
  on_rejected rid cfg k status code (set_inflight (delete rid (inflight st)) st).
Proof.
  intros Hin H. unfold on_response. rewrite Hin.
  destruct H as [H|H].
  - now rewrite bool_decide_eq_false_2 by lia.
  - rewrite H. now rewrite andb_false_r.
Qed.

Lemma on_rejected_surfaces rid cfg k status code st :
  status <> Some 401 \/ _retry cfg = true ->
  on_rejected rid cfg k status code st = settle rid k (Err (EAxios status code)) st.
Proof.
  intros H. unfold on_rejected. destruct H as [H|H].
  - now rewrite bool_decide_eq_false_2 by exact H.
  - rewrite H. now rewrite andb_false_r.
Qed.









(** ** Token issuance and persistence *)

(** C5, as stated, fails: with the token endpoint answering 2xx and the
    file write failing, neither [refreshToken] nor [getInitialTokens]
    reports success. *)
Lemma persistence_failure_is_not_success :
  snd (refreshToken_finish (HOk (credential "A2" "R2")) false authenticated)
    = Err EWriteFile
  /\ snd (getInitialTokens "code" (HOk (credential "A2" "R2")) false initial)
    = Err EInitialTokens.
Proof. split; reflexivity. Qed.

(** C5, amended. When the token endpoint answers 2xx, both operations
    replace the tokens in memory and hand them to the file write before
    returning; they succeed when the write succeeds, and when the write
    fails they fail (refresh with the write error, exchange with its own
    error) while the new tokens stay in memory. *)
Theorem tokens_persisted_before_return (code : string) (data : value)
  (write_ok : bool) (st : State) :
  (In (FileWrite data) (trace (fst (refreshToken_finish (HOk data) write_ok st)))
   /\ tokens (fst (refreshToken_finish (HOk data) write_ok st)) = data)
  /\ (In (FileWrite data) (trace (fst (getInitialTokens code (HOk data) write_ok st)))
      /\ tokens (fst (getInitialTokens code (HOk data) write_ok st)) = data)
  /\ snd (refreshToken_finish (HOk data) true st) = member data "access_token"
  /\ snd (getInitialTokens code (HOk data) true st) = Ok tt
  /\ snd (refreshToken_finish (HOk data) false st) = Err EWriteFile
  /\ snd (getInitialTokens code (HOk data) false st) = Err EInitialTokens.
Proof.
  unfold refreshToken_finish, getInitialTokens, _saveTokens.
  repeat split.
  - destruct write_ok; cbn [mbind Result_bind]; proj.
    + destruct (member data "access_token"); proj; firstorder.
    + proj. firstorder.
  - destruct write_ok; cbn [mbind Result_bind]; proj.
    + destruct (member data "access_token"); reflexivity.
    + reflexivity.
  - destruct write_ok; proj; firstorder.
  - destruct write_ok; reflexivity.
  - cbn [mbind Result_bind]; proj. destruct (member data "access_token"); reflexivity.
Qed.

(** ** Flushing the waiters *)

Lemma settle_keeps rid k r st x : In x (trace st) -> In x (trace (settle rid k r st)).
Proof.
  intros H. destruct (settle_trace rid k r st) as (out & -> & _).
  apply in_or_app. right. now right.
Qed.

Lemma resolve_waiter_eq a st rid cfg k :
  resolve_waiter a st (rid, cfg, k) =
  client rid (set_Authorization (Some (Bearer a)) cfg) k st.
Proof. reflexivity. Qed.

Lemma reject_waiter_eq e st rid cfg k :
  reject_waiter e st (rid, cfg, k) = settle rid k (Err e) st.
Proof. reflexivity. Qed.

Lemma resolve_all_frame a ws : forall st,
  tokens (fold_left (resolve_waiter a) ws st) = tokens st
  /\ isRefreshing (fold_left (resolve_waiter a) ws st) = isRefreshing st
  /\ pendingRequests (fold_left (resolve_waiter a) ws st) = pendingRequests st
  /\ refresher (fold_left (resolve_waiter a) ws st) = refresher st
  /\ cache (fold_left (resolve_waiter a) ws st) = cache st
  /\ statusPromises (fold_left (resolve_waiter a) ws st) = statusPromises st
  /\ next_id (fold_left (resolve_waiter a) ws st) = next_id st
  /\ now (fold_left (resolve_waiter a) ws st) = now st
  /\ sends (trace (fold_left (resolve_waiter a) ws st)) =
     (sends (trace st) + List.length ws)%nat
  /\ refreshes (trace (fold_left (resolve_waiter a) ws st)) = refreshes (trace st)
  /\ (forall x, In x (trace st) -> In x (trace (fold_left (resolve_waiter a) ws st))).
Proof.
  induction ws as [|[[rid cfg] k] ws IH]; intros st.
  - cbn [fold_left List.length]. repeat split; auto.
  - cbn [fold_left List.length].
    destruct (IH (resolve_waiter a st (rid, cfg, k)))
      as (H1 & H2 & H3 & H4 & H5 & H6 & H7 & H8 & H9 & H10 & H11).
    rewrite H1, H2, H3, H4, H5, H6, H7, H8, H9, H10.
    rewrite resolve_waiter_eq, client_trace.
    repeat split.
    + unfold sends. cbn [List.filter is_send List.length]. lia.
    + intros x Hx. apply H11. rewrite resolve_waiter_eq, client_trace. now right.
Qed.

(** Every waiter is sent again with the new token and is in flight again. *)
Lemma resolve_all_keeps_inflight a rid v ws : forall st,
  rid ∉ List.map rid_of ws ->
  inflight st !! rid = v ->
  inflight (fold_left (resolve_waiter a) ws st) !! rid = v.
Proof.
  induction ws as [|[[r c] q] ws IH]; intros st Hni Hs; [exact Hs|].
  cbn [fold_left]. apply IH.
  - intros Hin. apply Hni. cbn [List.map]. now apply list_elem_of_further.
  - rewrite resolve_waiter_eq, client_inflight.
    rewrite lookup_insert_ne; [exact Hs|].
    intros ->. apply Hni. cbn [List.map]. apply list_elem_of_here.
Qed.

Lemma resolve_all_replays a ws : forall st,
  NoDup (List.map rid_of ws) ->
  forall w, In w ws ->
    In (NetSend (rid_of w) (replayed (tokens st) a (cfg_of w)))
      (trace (fold_left (resolve_waiter a) ws st))
    /\ inflight (fold_left (resolve_waiter a) ws st) !! rid_of w =
       Some (replayed (tokens st) a (cfg_of w), cont_of w).
Proof.
  induction ws as [|[[rid cfg] k] ws IH]; intros st Hnd w Hw; [destruct Hw|].
  cbn [List.map] in Hnd. apply NoDup_cons in Hnd as [Hnotin Hnd].
  cbn [fold_left].
  destruct Hw as [<-|Hw].
  - cbn [rid_of cfg_of cont_of fst snd]. split.
    + apply resolve_all_frame. rewrite resolve_waiter_eq, client_trace. now left.
    + apply resolve_all_keeps_inflight; [exact Hnotin|].
      rewrite resolve_waiter_eq, client_inflight. apply lookup_insert_eq.
  - apply (IH (resolve_waiter a st (rid, cfg, k)) Hnd w Hw).
Qed.

Lemma reject_all_frame e ws : forall st,
  tokens (fold_left (reject_waiter e) ws st) = tokens st
  /\ isRefreshing (fold_left (reject_waiter e) ws st) = isRefreshing st
  /\ pendingRequests (fold_left (reject_waiter e) ws st) = pendingRequests st
  /\ refresher (fold_left (reject_waiter e) ws st) = refresher st
  /\ inflight (fold_left (reject_waiter e) ws st) = inflight st
  /\ next_id (fold_left (reject_waiter e) ws st) = next_id st
  /\ now (fold_left (reject_waiter e) ws st) = now st
  /\ sends (trace (fold_left (reject_waiter e) ws st)) = sends (trace st)
  /\ refreshes (trace (fold_left (reject_waiter e) ws st)) = refreshes (trace st)
  /\ (forall x, In x (trace st) -> In x (trace (fold_left (reject_waiter e) ws st))).
Proof.
  induction ws as [|[[rid cfg] k] ws IH]; intros st.
  - cbn [fold_left]. repeat split; auto.
  - cbn [fold_left].
    destruct (IH (reject_waiter e st (rid, cfg, k)))
      as (H1 & H2 & H3 & H4 & H5 & H6 & H7 & H8 & H9 & H10).
    rewrite H1, H2, H3, H4, H5, H6, H7, H8, H9.
    rewrite reject_waiter_eq.
    destruct (settle_frame rid k (Err e) st) as (F1 & F2 & F3 & F4 & F5 & F6 & F7).
    destruct (settle_counts rid k (Err e) st) as (C1 & C2 & _ & _).
    rewrite F1, F2, F3, F4, F5, F6, F7, C1, C2.
    repeat split.
    intros x Hx. apply H10. rewrite reject_waiter_eq. now apply settle_keeps.
Qed.


Lemma flush_resolve a st :
  _flushWaiters None a st =
  set_pendingRequests [] (fold_left (resolve_waiter a) (pendingRequests st) st).
Proof. reflexivity. Qed.

Lemma flush_reject e tok st :
  _flushWaiters (Some e) tok st =
  set_pendingRequests [] (fold_left (reject_waiter e) (pendingRequests st) st).
Proof. reflexivity. Qed.

(** ** The outcome of a refresh *)

Lemma refreshToken_finish_outcome r w st :
  snd (refreshToken_finish r w st) = refresh_outcome r w.
Proof.
  unfold refreshToken_finish, refresh_outcome, _saveTokens.
  destruct r as [data|s c]; [destruct w|]; cbn [mbind Result_bind]; proj.
  - destruct (member data "access_token"); reflexivity.
  - reflexivity.
  - reflexivity.
Qed.

Lemma refreshToken_finish_frame r w st :
  isRefreshing (fst (refreshToken_finish r w st)) = isRefreshing st
  /\ pendingRequests (fst (refreshToken_finish r w st)) = pendingRequests st
  /\ refresher (fst (refreshToken_finish r w st)) = refresher st
  /\ inflight (fst (refreshToken_finish r w st)) = inflight st
  /\ cache (fst (refreshToken_finish r w st)) = cache st
  /\ statusPromises (fst (refreshToken_finish r w st)) = statusPromises st
  /\ next_id (fst (refreshToken_finish r w st)) = next_id st
  /\ now (fst (refreshToken_finish r w st)) = now st
  /\ sends (trace (fst (refreshToken_finish r w st))) = sends (trace st)
  /\ refreshes (trace (fst (refreshToken_finish r w st))) = refreshes (trace st)
  /\ tokens (fst (refreshToken_finish r w st)) =
     match r with HOk data => data | HFail _ _ => tokens st end
  /\ (forall x, In x (trace st) -> In x (trace (fst (refreshToken_finish r w st)))).
Proof.
  unfold refreshToken_finish, _saveTokens.
  destruct r as [data|s c]; [destruct w|]; cbn [mbind Result_bind]; proj;
    try destruct (member data "access_token"); proj; repeat split;
    intros x Hx; cbn [In]; auto.
Qed.

(** ** The 401 handler *)

Lemma retryCondition_401 lib cfg code : retryCondition lib cfg (Some 401) code = false.
Proof.
  destruct (retryCondition lib cfg (Some 401) code) eqn:E; [|reflexivity].
  apply retryCondition_response in E. lia.
Qed.

Lemma on_response_401 lib rid cfg k code st :
  inflight st !! rid = Some (cfg, k) ->
  on_response lib rid (HFail (Some 401) code) st =
  on_rejected rid cfg k (Some 401) code (set_inflight (delete rid (inflight st)) st).
Proof.
  intros Hin. apply on_response_no_retry; [exact Hin|].
  right. apply retryCondition_401.
Qed.

(** The first 401 while no refresh runs: the handler marks the request,
    raises the flag and posts the refresh. *)
Lemma first_401_refreshes lib rid cfg k code st :
  inflight st !! rid = Some (cfg, k) ->
  _retry cfg = false ->
  isRefreshing st = false ->
  truthy (opt_get (tokens st) "refresh_token") = true ->
  on_response lib rid (HFail (Some 401) code) st =
  set_refresher (Some (rid, set__retry true cfg, k))
    (emit (NetRefresh (opt_get (tokens st) "refresh_token"))
       (set_isRefreshing true (set_inflight (delete rid (inflight st)) st))).
Proof.
  intros Hin Hr Hf Ht. rewrite (on_response_401 lib rid cfg k code st Hin).
  unfold on_rejected. rewrite Hr. rewrite bool_decide_eq_true_2 by reflexivity.
  cbn [andb negb]. proj. rewrite Hf. cbn [negb].
  unfold refreshToken_start. proj. rewrite Ht. reflexivity.
Qed.



(** A request already replayed once: its 401 goes to the caller. *)
Lemma replayed_401_surfaces lib rid cfg k code st :
  inflight st !! rid = Some (cfg, k) ->
  _retry cfg = true ->
  on_response lib rid (HFail (Some 401) code) st =
  settle rid k (Err (EAxios (Some 401) code))
    (set_inflight (delete rid (inflight st)) st).
Proof.
  intros Hin Hr. rewrite (on_response_401 lib rid cfg k code st Hin).
  apply on_rejected_surfaces. now right.
Qed.

Lemma run_cons lib st ev evs : run lib st (ev :: evs) = run lib (step lib st ev) evs.
Proof. reflexivity. Qed.

Lemma run_app lib st evs1 evs2 :
  run lib st (evs1 ++ evs2)%list = run lib (run lib st evs1) evs2.
Proof. unfold run. apply fold_left_app. Qed.


Lemma member_opt_get v k a : member v k = Ok a -> opt_get v k = a.
Proof.
  unfold member, opt_get. destruct (get v k); [|discriminate].
  intros H. injection H as ->. reflexivity.
Qed.

Lemma replayed_fields toks a cfg :
  opt_get toks "access_token" = a ->
  Authorization (replayed toks a cfg) = Some (Bearer a)
  /\ _retry (replayed toks a cfg) = _retry cfg
  /\ retryCount (replayed toks a cfg) = retryCount cfg
  /\ endpoint (replayed toks a cfg) = endpoint cfg.
Proof.
  intros H. unfold replayed, inject. rewrite H.
  destruct (truthy a); repeat split.
Qed.

Lemma refresh_outcome_tokens r w a st :
  refresh_outcome r w = Ok a ->
  opt_get (tokens (fst (refreshToken_finish r w st))) "access_token" = a.
Proof.
  intros H. destruct (refreshToken_finish_frame r w st)
    as (_ & _ & _ & _ & _ & _ & _ & _ & _ & _ & Ht & _).
  rewrite Ht. unfold refresh_outcome in H.
  destruct r as [data|s c]; [|discriminate]. destruct w; [|discriminate].
  now apply member_opt_get.
Qed.

(** The refresh succeeded: the flag drops, the queue empties, and the
    refresher and every waiter are sent again with the new access token. *)
Lemma refresh_success_replays r w a me st :
  refresher st = Some me ->
  NoDup (List.map rid_of (me :: pendingRequests st)) ->
  refresh_outcome r w = Ok a ->
  isRefreshing (on_refresh_response r w st) = false
  /\ pendingRequests (on_refresh_response r w st) = []
  /\ refresher (on_refresh_response r w st) = None
  /\ refreshes (trace (on_refresh_response r w st)) = refreshes (trace st)
  /\ sends (trace (on_refresh_response r w st)) =
     (sends (trace st) + S (List.length (pendingRequests st)))%nat
  /\ forall x, In x (me :: pendingRequests st) ->
       exists cfg',
         In (NetSend (rid_of x) cfg') (trace (on_refresh_response r w st))
         /\ Authorization cfg' = Some (Bearer a)
         /\ _retry cfg' = _retry (cfg_of x)
         /\ inflight (on_refresh_response r w st) !! rid_of x = Some (cfg', cont_of x).
Proof.
  intros Href Hnd Hout. unfold on_refresh_response. rewrite Href.
  pose proof (refreshToken_finish_outcome r w (set_refresher None st)) as Hres.
  pose proof (refresh_outcome_tokens r w a (set_refresher None st) Hout) as Htok.
  destruct (refreshToken_finish_frame r w (set_refresher None st))
    as (F1 & F2 & F3 & F4 & F5 & F6 & F7 & F8 & F9 & F10 & F11 & F12).
  destruct (refreshToken_finish r w (set_refresher None st)) as [stf res].
  cbn [fst snd] in *. rewrite Hres, Hout. clear Hres.
  unfold refresh_succeeded. rewrite flush_resolve. proj.
  destruct me as [[rid0 cfg0] k0]. rewrite resolve_waiter_eq.
  set (sf := set_isRefreshing false stf).
  destruct (resolve_all_frame a (pendingRequests stf) sf)
    as (R1 & R2 & R3 & R4 & R5 & R6 & R7 & R8 & R9 & R10 & R11).
  set (sw := fold_left (resolve_waiter a) (pendingRequests stf) sf) in *.
  unfold client. proj_all.
  rewrite R2, R4, R1. unfold sf at 1 2 3. proj. rewrite F3.
  assert (Hs : sends (trace sw) =
               (sends (trace st) + List.length (pendingRequests st))%nat).
  { rewrite R9. unfold sf. proj. rewrite F9, F2. proj. reflexivity. }
  assert (Hr : refreshes (trace sw) = refreshes (trace st)).
  { rewrite R10. unfold sf. proj. rewrite F10. reflexivity. }
  split; [reflexivity|]. split; [reflexivity|]. split; [reflexivity|].
  split; [exact Hr|]. split.
  - unfold sends in *. cbn [List.filter is_send List.length]. rewrite Hs. lia.
  - intros x [<-|Hx].
    + cbn [rid_of cfg_of cont_of fst snd].
      destruct (replayed_fields (tokens stf) a cfg0 Htok) as (A1 & A2 & _).
      exists (replayed (tokens stf) a cfg0). unfold replayed in *.
      rewrite lookup_insert_eq. repeat split; auto. now left.
    + cbn [List.map] in Hnd. apply NoDup_cons in Hnd as [Hni Hnd].
      proj. rewrite <- F2 in Hx, Hnd.
      destruct (resolve_all_replays a (pendingRequests stf) sf Hnd x Hx) as [S1 S2].
      fold sw in S1, S2. unfold sf in S1, S2.
      cbn [tokens set_isRefreshing] in S1, S2.
      destruct (replayed_fields (tokens stf) a (cfg_of x) Htok) as (A1 & A2 & _).
      exists (replayed (tokens stf) a (cfg_of x)).
      split; [now right|]. repeat split; auto.
      rewrite lookup_insert_ne; [exact S2|].
      cbn [rid_of fst] in Hni. intros Heq. apply Hni. rewrite Heq.
      apply list_elem_of_In. rewrite <- F2. now apply in_map.
Qed.


(** ** The refresh coordinator in every reachable state *)




Lemma same_coordinator_client rid cfg k st : same_coordinator st (client rid cfg k st).
Proof. repeat split. Qed.







(** ** Single-flight refresh *)







(** ** Replay once *)

(** C3. A request that carries the retry mark and is answered 401 is
    handed to its caller as an error: it is not queued, starts no refresh
    and is not sent again.  In particular a request answered 401, replayed
    after a successful refresh and answered 401 again was sent twice in
    all and caused one refresh. *)
Theorem replay_at_most_once (isRetryAllowed : string -> bool) (rid : nat)
  (cfg : Config) (k : Cont) (code code' : string) (r : HttpResult) (write_ok : bool)
  (a : value) (st : State) :
  inflight st !! rid = Some (cfg, k) ->
  (_retry cfg = true ->
     In (ClientSettle rid (Err (EAxios (Some 401) code)))
       (trace (on_response isRetryAllowed rid (HFail (Some 401) code) st))
     /\ pendingRequests (on_response isRetryAllowed rid (HFail (Some 401) code) st) =
        pendingRequests st
     /\ isRefreshing (on_response isRetryAllowed rid (HFail (Some 401) code) st) =
        isRefreshing st
     /\ refresher (on_response isRetryAllowed rid (HFail (Some 401) code) st) =
        refresher st
     /\ refreshes (trace (on_response isRetryAllowed rid (HFail (Some 401) code) st)) =
        refreshes (trace st)
     /\ sends (trace (on_response isRetryAllowed rid (HFail (Some 401) code) st)) =
        sends (trace st)
     /\ inflight (on_response isRetryAllowed rid (HFail (Some 401) code) st) !! rid = None)
  /\ (_retry cfg = false ->
      isRefreshing st = false ->
      pendingRequests st = [] ->
      truthy (opt_get (tokens st) "refresh_token") = true ->
      refresh_outcome r write_ok = Ok a ->
      In (ClientSettle rid (Err (EAxios (Some 401) code')))
        (trace (run isRetryAllowed st
                  [Response rid (HFail (Some 401) code); RefreshResponse r write_ok;
                   Response rid (HFail (Some 401) code')]))
      /\ sends (trace (run isRetryAllowed st
                  [Response rid (HFail (Some 401) code); RefreshResponse r write_ok;
                   Response rid (HFail (Some 401) code')])) = S (sends (trace st))
      /\ refreshes (trace (run isRetryAllowed st
                  [Response rid (HFail (Some 401) code); RefreshResponse r write_ok;
                   Response rid (HFail (Some 401) code')])) = S (refreshes (trace st))
      /\ isRefreshing (run isRetryAllowed st
                  [Response rid (HFail (Some 401) code); RefreshResponse r write_ok;
                   Response rid (HFail (Some 401) code')]) = false
      /\ pendingRequests (run isRetryAllowed st
                  [Response rid (HFail (Some 401) code); RefreshResponse r write_ok;
                   Response rid (HFail (Some 401) code')]) = []
      /\ inflight (run isRetryAllowed st
                  [Response rid (HFail (Some 401) code); RefreshResponse r write_ok;
                   Response rid (HFail (Some 401) code')]) !! rid = None).
Proof.
  intros Hin.
  assert (Hgen : forall c rid' cfg' k' s,
            inflight s !! rid' = Some (cfg', k') -> _retry cfg' = true ->
            In (ClientSettle rid' (Err (EAxios (Some 401) c)))
              (trace (on_response isRetryAllowed rid' (HFail (Some 401) c) s))
            /\ pendingRequests (on_response isRetryAllowed rid' (HFail (Some 401) c) s) =
               pendingRequests s
            /\ isRefreshing (on_response isRetryAllowed rid' (HFail (Some 401) c) s) =
               isRefreshing s
            /\ refresher (on_response isRetryAllowed rid' (HFail (Some 401) c) s) =
               refresher s
            /\ refreshes (trace (on_response isRetryAllowed rid' (HFail (Some 401) c) s)) =
               refreshes (trace s)
            /\ sends (trace (on_response isRetryAllowed rid' (HFail (Some 401) c) s)) =
               sends (trace s)
            /\ inflight (on_response isRetryAllowed rid' (HFail (Some 401) c) s) !! rid'
               = None).
  { intros c rid' cfg' k' s Hi Hr.
    rewrite (replayed_401_surfaces isRetryAllowed rid' cfg' k' c s Hi Hr).
    set (sd := set_inflight (delete rid' (inflight s)) s).
    destruct (settle_frame rid' k' (Err (EAxios (Some 401) c)) sd)
      as (_ & F2 & F3 & F4 & F5 & _).
    destruct (settle_counts rid' k' (Err (EAxios (Some 401) c)) sd)
      as (C1 & C2 & _ & C4).
    rewrite F2, F3, F4, F5, C1, C2. unfold sd. proj.
    repeat split; auto. apply lookup_delete_eq. }
  split; [intros Hr; exact (Hgen code rid cfg k st Hin Hr)|].
  intros Hr Hf Hp Ht Hout.
  rewrite !run_cons. cbn [run fold_left step].
  rewrite (first_401_refreshes isRetryAllowed rid cfg k code st Hin Hr Hf Ht).
  match goal with |- context [on_refresh_response r write_ok ?s] => set (s1 := s) end.
  assert (Href : refresher s1 = Some (rid, set__retry true cfg, k)) by reflexivity.
  assert (Hq1 : pendingRequests s1 = []) by exact Hp.
  destruct (refresh_success_replays r write_ok a _ s1 Href) as
    (R1 & R2 & R3 & R4 & R5 & R6); [|exact Hout|].
  { rewrite Hq1. cbn. apply NoDup_cons. split; [apply not_elem_of_nil|apply NoDup_nil_2]. }
  destruct (R6 (rid, set__retry true cfg, k) (or_introl eq_refl))
    as (cfg' & _ & _ & Q3 & Q4).
  cbn [rid_of cfg_of cont_of fst snd _retry set__retry] in Q3, Q4.
  set (s2 := on_refresh_response r write_ok s1) in *.
  destruct (Hgen code' rid cfg' k s2 Q4 Q3) as (G1 & G2 & G3 & G4 & G5 & G6 & G7).
  rewrite G2, G3, G5, G6, R1, R2, R4, R5, Hq1. unfold s1. proj.
  repeat split; auto.
  cbn [List.length]. unfold refreshes, sends. cbn [List.filter is_send List.length].
  fold (sends (trace st)). lia.
Qed.

Lemma replay_at_most_once_witness :
  sends (trace (run (fun _ => true) (fst (getDevices authenticated))
                  [Response 0%nat e401;
                   RefreshResponse (HOk (credential "A2" "R2")) true;
                   Response 0%nat e401])) =
  S (sends (trace (fst (getDevices authenticated)))).
Proof.
  destruct (replay_at_most_once (fun _ => true) 0%nat
              (inject (credential "A1" "R1") (new_request Devices)) KDevices
              "ERR_BAD_REQUEST" "ERR_BAD_REQUEST" (HOk (credential "A2" "R2")) true
              (VStr "A2") (fst (getDevices authenticated)) eq_refl) as (_ & H).
  destruct (H eq_refl eq_refl eq_refl eq_refl eq_refl) as (_ & H2 & _).
  exact H2.
Defined.

(** ** After a failed refresh *)


Lemma getStatus_miss deviceId st :
  truthy (snd (LRU.get cache_ttl (now st) (cache_key deviceId) (cache st))) = false ->
  statusPromises st !! deviceId = None ->
  snd (getStatus deviceId st) = Pending (next_id st)
  /\ trace (fst (getStatus deviceId st)) =
     NetSend (next_id st) (inject (tokens st) (new_request (DeviceStatus deviceId)))
       :: trace st
  /\ statusPromises (fst (getStatus deviceId st)) !! deviceId = Some (next_id st)
  /\ inflight (fst (getStatus deviceId st)) !! next_id st =
     Some (inject (tokens st) (new_request (DeviceStatus deviceId)), KStatus deviceId).
Proof.
  intros Hc Hp. unfold getStatus.
  destruct (LRU.get _ _ _ _) as [c cached]. cbn [snd] in Hc. rewrite Hc.
  proj. rewrite Hp. proj. unfold client. proj.
  repeat split; apply lookup_insert_eq.
Qed.

Lemma getStatus_joins deviceId p st :
  truthy (snd (LRU.get cache_ttl (now st) (cache_key deviceId) (cache st))) = false ->
  statusPromises st !! deviceId = Some p ->
  snd (getStatus deviceId st) = Pending p
  /\ trace (fst (getStatus deviceId st)) = trace st
  /\ statusPromises (fst (getStatus deviceId st)) = statusPromises st
  /\ inflight (fst (getStatus deviceId st)) = inflight st
  /\ now (fst (getStatus deviceId st)) = now st
  /\ next_id (fst (getStatus deviceId st)) = next_id st
  /\ cache (fst (getStatus deviceId st)) =
     fst (LRU.get cache_ttl (now st) (cache_key deviceId) (cache st)).
Proof.
  intros Hc Hp. unfold getStatus.
  destruct (LRU.get _ _ _ _) as [c cached]. cbn [snd] in Hc. rewrite Hc.
  proj. rewrite Hp. repeat split.
Qed.



(** ** Facts about the cache *)

Lemma find_key k l e : LRU.find k l = Some e -> In e l /\ LRU.key e = k.
Proof.
  unfold LRU.find. intros H. apply List.find_some in H as [Hin Hk].
  split; [exact Hin|]. now apply String.eqb_eq.
Qed.

Lemma find_remove k l : LRU.find k (LRU.remove k l) = None.
Proof.
  unfold LRU.find, LRU.remove. induction l as [|e l IH]; [reflexivity|].
  cbn [List.filter]. destruct (String.eqb (LRU.key e) k) eqn:E; cbn [negb]; [exact IH|].
  cbn [List.find]. now rewrite E.
Qed.

Lemma remove_idem k l : LRU.remove k (LRU.remove k l) = LRU.remove k l.
Proof.
  unfold LRU.remove. induction l as [|e l IH]; [reflexivity|].
  cbn [List.filter]. destruct (String.eqb (LRU.key e) k) eqn:E; cbn [negb]; [exact IH|].
  cbn [List.filter]. rewrite E. cbn [negb]. now rewrite IH.
Qed.

Lemma remove_absent k l : LRU.find k l = None -> LRU.remove k l = l.
Proof.
  unfold LRU.find, LRU.remove. induction l as [|e l IH]; [reflexivity|].
  cbn [List.find List.filter]. destruct (String.eqb (LRU.key e) k); [discriminate|].
  intros H. cbn [negb]. now rewrite IH.
Qed.

Lemma remove_length k l : (List.length (LRU.remove k l) <= List.length l)%nat.
Proof. unfold LRU.remove. apply List.filter_length_le. Qed.

Lemma remove_found_length k l e :
  LRU.find k l = Some e -> (S (List.length (LRU.remove k l)) <= List.length l)%nat.
Proof.
  unfold LRU.find, LRU.remove. induction l as [|x l IH]; [discriminate|].
  cbn [List.find List.filter]. destruct (String.eqb (LRU.key x) k); cbn [negb List.length].
  - intros _. pose proof (List.filter_length_le
                            (fun e0 => negb (String.eqb (LRU.key e0) k)) l). lia.
  - intros H. specialize (IH H). lia.
Qed.

Lemma get_absent ttl t k l : LRU.find k l = None -> LRU.get ttl t k l = (l, VUndefined).
Proof. intros H. unfold LRU.get. now rewrite H. Qed.

(** Reading twice at the same instant is reading once. *)
Lemma get_idem ttl t k l :
  LRU.get ttl t k (fst (LRU.get ttl t k l)) = LRU.get ttl t k l.
Proof.
  unfold LRU.get at 2 3. destruct (LRU.find k l) as [e|] eqn:E.
  - destruct (find_key k l e E) as [_ Hk].
    destruct (LRU.isStale ttl t e) eqn:Hs; cbn [fst].
    + now rewrite get_absent by apply find_remove.
    + unfold LRU.get. replace (LRU.find k (e :: LRU.remove k l)) with (Some e).
      * rewrite Hs. f_equal. f_equal. unfold LRU.remove at 1. cbn [List.filter].
        rewrite Hk, String.eqb_refl. cbn [negb]. apply remove_idem.
      * unfold LRU.find. cbn [List.find]. now rewrite Hk, String.eqb_refl.
  - cbn [fst]. now apply get_absent.
Qed.

(** A hit comes from an entry no older than the time to live. *)
Lemma get_hit_fresh ttl t k l :
  snd (LRU.get ttl t k l) <> VUndefined ->
  exists e, In e l /\ LRU.key e = k /\ LRU.val e = snd (LRU.get ttl t k l)
            /\ t - LRU.start e <= ttl.
Proof.
  unfold LRU.get. destruct (LRU.find k l) as [e|] eqn:E; [|intros H; now elim H].
  destruct (find_key k l e E) as [Hin Hk].
  unfold LRU.isStale. case_bool_decide as Hs; cbn [snd]; [intros H; now elim H|].
  intros _. exists e. repeat split; auto. lia.
Qed.

(** An entry older than the time to live is not returned. *)
Lemma get_stale ttl t k l e :
  LRU.find k l = Some e -> ttl < t - LRU.start e ->
  LRU.get ttl t k l = (LRU.remove k l, VUndefined).
Proof.
  intros E Hs. unfold LRU.get. rewrite E. unfold LRU.isStale.
  now rewrite bool_decide_eq_true_2 by exact Hs.
Qed.

Lemma removelast_length {A} (l : list A) :
  List.length (List.removelast l) = Nat.pred (List.length l).
Proof.
  induction l as [|x l IH]; [reflexivity|].
  destruct l as [|y l]; [reflexivity|].
  cbn [List.removelast List.length] in *. now rewrite IH.
Qed.

(** The store never grows beyond its bound. *)
Lemma get_bounded max ttl t k l :
  (List.length l <= max)%nat -> (List.length (fst (LRU.get ttl t k l)) <= max)%nat.
Proof.
  intros H. unfold LRU.get. destruct (LRU.find k l) as [e|] eqn:E; [|exact H].
  pose proof (remove_found_length k l e E).
  destruct (LRU.isStale ttl t e); cbn [fst List.length]; lia.
Qed.

Lemma set_bounded max t k v l :
  (0 < max)%nat -> (List.length l <= max)%nat ->
  (List.length (LRU.set max t k v l) <= max)%nat.
Proof.
  intros Hpos H. unfold LRU.set. destruct (LRU.find k l) as [e|] eqn:E.
  - pose proof (remove_found_length k l e E). cbn [List.length]. lia.
  - case_bool_decide; cbn [List.length]; [rewrite removelast_length|]; lia.
Qed.

Lemma delete_bounded max k l :
  (List.length l <= max)%nat -> (List.length (LRU.delete k l) <= max)%nat.
Proof. intros H. unfold LRU.delete. pose proof (remove_length k l). lia. Qed.

(** ** Single-flight fetch *)

Lemma getStatus_miss_eq deviceId st :
  truthy (snd (LRU.get cache_ttl (now st) (cache_key deviceId) (cache st))) = false ->
  statusPromises st !! deviceId = None ->
  getStatus deviceId st =
  (set_statusPromises (<[deviceId := next_id st]> (statusPromises st))
     (client (next_id st) (new_request (DeviceStatus deviceId)) (KStatus deviceId)
        (set_next_id (S (next_id st))
           (set_cache (fst (LRU.get cache_ttl (now st) (cache_key deviceId) (cache st)))
              st))),
   Pending (next_id st)).
Proof.
  intros Hc Hp. unfold getStatus.
  destruct (LRU.get _ _ _ _) as [c cached]. cbn [snd] in Hc. rewrite Hc.
  proj. rewrite Hp. reflexivity.
Qed.

Lemma getStatus_joins_eq deviceId p st :
  truthy (snd (LRU.get cache_ttl (now st) (cache_key deviceId) (cache st))) = false ->
  statusPromises st !! deviceId = Some p ->
  getStatus deviceId st =
  (set_cache (fst (LRU.get cache_ttl (now st) (cache_key deviceId) (cache st))) st,
   Pending p).
Proof.
  intros Hc Hp. unfold getStatus.
  destruct (LRU.get _ _ _ _) as [c cached]. cbn [snd] in Hc. rewrite Hc.
  proj. rewrite Hp. reflexivity.
Qed.

(** The state right after the call that started the fetch still has no
    cached snapshot to serve. *)
Lemma getStatus_miss_still_miss deviceId st :
  truthy (snd (LRU.get cache_ttl (now st) (cache_key deviceId) (cache st))) = false ->
  statusPromises st !! deviceId = None ->
  LRU.get cache_ttl (now (fst (getStatus deviceId st))) (cache_key deviceId)
    (cache (fst (getStatus deviceId st))) =
  LRU.get cache_ttl (now st) (cache_key deviceId) (cache st).
Proof.
  intros Hc Hp. rewrite (getStatus_miss_eq deviceId st Hc Hp).
  unfold client. proj. apply get_idem.
Qed.

(** Once a caller has started the fetch, further callers change nothing
    and receive the same promise. *)
Lemma getStatus_started deviceId st :
  truthy (snd (LRU.get cache_ttl (now st) (cache_key deviceId) (cache st))) = false ->
  statusPromises st !! deviceId = None ->
  forall lib n,
    run lib (fst (getStatus deviceId st)) (repeat (CallGetStatus deviceId) n) =
    fst (getStatus deviceId st).
Proof.
  intros Hc Hp lib n. induction n as [|n IH]; [reflexivity|].
  cbn [repeat]. rewrite run_cons. cbn [step].
  assert (Hfix : fst (getStatus deviceId (fst (getStatus deviceId st))) =
                 fst (getStatus deviceId st)).
  { pose proof (getStatus_miss_still_miss deviceId st Hc Hp) as Hm.
    destruct (getStatus_miss deviceId st Hc Hp) as (_ & _ & M3 & _).
    rewrite (getStatus_joins_eq deviceId (next_id st) (fst (getStatus deviceId st)));
      [|now rewrite Hm|exact M3].
    rewrite Hm. rewrite (getStatus_miss_eq deviceId st Hc Hp).
    unfold client. proj. reflexivity. }
  rewrite Hfix. exact IH.
Qed.

(** While a fetch is in flight, callers join it: nothing is sent. *)
Lemma getStatus_all_join lib deviceId p n : forall st,
  truthy (snd (LRU.get cache_ttl (now st) (cache_key deviceId) (cache st))) = false ->
  statusPromises st !! deviceId = Some p ->
  snd (getStatus deviceId (run lib st (repeat (CallGetStatus deviceId) n))) = Pending p
  /\ trace (run lib st (repeat (CallGetStatus deviceId) n)) = trace st
  /\ statusPromises (run lib st (repeat (CallGetStatus deviceId) n)) = statusPromises st.
Proof.
  induction n as [|n IH]; intros st Hc Hp.
  - cbn [repeat run fold_left].
    destruct (getStatus_joins deviceId p st Hc Hp) as (J1 & _). auto.
  - cbn [repeat]. rewrite run_cons. cbn [step].
    destruct (getStatus_joins deviceId p st Hc Hp) as (_ & J2 & J3 & _ & J5 & _ & J7).
    destruct (IH (fst (getStatus deviceId st))) as (I1 & I2 & I3).
    + rewrite J5, J7. now rewrite get_idem.
    + now rewrite J3.
    + rewrite I1, I2, I3, J2, J3. auto.
Qed.

(** C2. With no unexpired entry cached for a device, any number of
    [getStatus] calls issued before the answer arrives send one request
    and hand every caller the same promise (when a fetch for the device is
    already in flight they all join it and send nothing); when the fetch
    completes, in success or in failure, that promise settles once (with
    the snapshot, or with the status error) and the in-flight entry is
    removed, so that after a failure the next call fetches anew. *)
Theorem single_flight_fetch (isRetryAllowed : string -> bool) (deviceId : string)
  (st : State) :
  truthy (snd (LRU.get cache_ttl (now st) (cache_key deviceId) (cache st))) = false ->
  (statusPromises st !! deviceId = None ->
   (forall n,
      snd (getStatus deviceId
             (run isRetryAllowed st (repeat (CallGetStatus deviceId) n))) =
      Pending (next_id st))
   /\ (forall n,
         sends (trace (run isRetryAllowed st (repeat (CallGetStatus deviceId) (S n)))) =
         S (sends (trace st))
         /\ statusPromises (run isRetryAllowed st (repeat (CallGetStatus deviceId) (S n)))
              !! deviceId = Some (next_id st)
         /\ exists cfg,
              inflight (run isRetryAllowed st (repeat (CallGetStatus deviceId) (S n)))
                !! next_id st = Some (cfg, KStatus deviceId))
   /\ (forall n body,
         trace (on_response isRetryAllowed (next_id st) (HOk body)
                  (run isRetryAllowed st (repeat (CallGetStatus deviceId) (S n)))) =
         Settle (next_id st) (Ok (status_snapshot body))
           :: ClientSettle (next_id st) (Ok body)
           :: trace (run isRetryAllowed st (repeat (CallGetStatus deviceId) (S n)))
         /\ statusPromises
              (on_response isRetryAllowed (next_id st) (HOk body)
                 (run isRetryAllowed st (repeat (CallGetStatus deviceId) (S n))))
              !! deviceId = None)
   /\ (forall n e,
         In (Settle (next_id st) (Err (EStatusFailed deviceId)))
           (trace (settle (next_id st) (KStatus deviceId) (Err e)
                     (run isRetryAllowed st (repeat (CallGetStatus deviceId) (S n)))))
         /\ statusPromises
              (settle (next_id st) (KStatus deviceId) (Err e)
                 (run isRetryAllowed st (repeat (CallGetStatus deviceId) (S n))))
              !! deviceId = None
         /\ snd (getStatus deviceId
                   (settle (next_id st) (KStatus deviceId) (Err e)
                      (run isRetryAllowed st (repeat (CallGetStatus deviceId) (S n))))) =
            Pending (S (next_id st))
         /\ sends (trace (fst (getStatus deviceId
                   (settle (next_id st) (KStatus deviceId) (Err e)
                      (run isRetryAllowed st (repeat (CallGetStatus deviceId) (S n))))))) =
            S (S (sends (trace st)))))
  /\ (forall p, statusPromises st !! deviceId = Some p ->
      forall n,
        snd (getStatus deviceId
               (run isRetryAllowed st (repeat (CallGetStatus deviceId) n))) = Pending p
        /\ sends (trace (run isRetryAllowed st (repeat (CallGetStatus deviceId) n))) =
           sends (trace st)).
Proof.
  intros Hc. split.
  2:{ intros p Hp n.
      destruct (getStatus_all_join isRetryAllowed deviceId p n st Hc Hp) as (H1 & H2 & _).
      now rewrite H1, H2. }
  intros Hp.
  destruct (getStatus_miss deviceId st Hc Hp) as (M1 & M2 & M3 & M4).
  assert (Hrun : forall n,
            run isRetryAllowed st (repeat (CallGetStatus deviceId) (S n)) =
            fst (getStatus deviceId st)).
  { intros n. cbn [repeat]. rewrite run_cons. cbn [step].
    now apply getStatus_started. }
  assert (Hc1 : truthy (snd (LRU.get cache_ttl (now (fst (getStatus deviceId st)))
                         (cache_key deviceId) (cache (fst (getStatus deviceId st)))))
                = false).
  { now rewrite (getStatus_miss_still_miss deviceId st Hc Hp). }
  split; [|split; [|split]].
  - intros [|n].
    + exact M1.
    + rewrite Hrun.
      now destruct (getStatus_joins deviceId (next_id st) _ Hc1 M3) as (-> & _).
  - intros n. rewrite Hrun, M2, M3, M4. repeat split. eauto.
  - intros n body. rewrite Hrun.
    unfold on_response. rewrite M4. unfold settle. proj.
    split; [reflexivity|]. apply lookup_delete_eq.
  - intros n e. rewrite Hrun.
    set (s1 := fst (getStatus deviceId st)) in *.
    assert (Hs : settle (next_id st) (KStatus deviceId) (Err e) s1 =
                 set_statusPromises (delete deviceId (statusPromises s1))
                   (emit (Settle (next_id st) (Err (EStatusFailed deviceId)))
                      (emit (Log (StatusFailed deviceId))
                         (emit (ClientSettle (next_id st) (Err e)) s1)))) by reflexivity.
    rewrite Hs. proj. split; [now left|]. split; [apply lookup_delete_eq|].
    match goal with |- context [getStatus deviceId ?s] => set (s2 := s) end.
    destruct (getStatus_miss deviceId s2) as (N1 & N2 & _).
    + exact Hc1.
    + unfold s2. proj. apply lookup_delete_eq.
    + rewrite N1, N2. unfold s2. proj.
      assert (Hn : next_id s1 = S (next_id st)).
      { unfold s1, getStatus. destruct (LRU.get _ _ _ _) as [c cached].
        cbn [snd] in Hc. rewrite Hc. proj. rewrite Hp. reflexivity. }
      rewrite Hn, M2. split; reflexivity.
Qed.

Lemma single_flight_fetch_witness :
  snd (getStatus "ac1" (run (fun _ => true) authenticated (repeat (CallGetStatus "ac1") 3)))
  = Pending 0%nat
  /\ sends (trace (run (fun _ => true) authenticated (repeat (CallGetStatus "ac1") 3)))
     = 1%nat.
Proof.
  destruct (single_flight_fetch (fun _ => true) "ac1" authenticated eq_refl) as (H & _).
  destruct (H eq_refl) as (H1 & H2 & _).
  split; [exact (H1 3%nat)|]. destruct (H2 2%nat) as (H3 & _). exact H3.
Defined.

(** ** Invalidation by commands *)


Lemma sendCommand_eq deviceId command st :
  sendCommand deviceId command st =
  (client (next_id st)
     (new_request
        (DeviceCommands deviceId
           (match command with VArr _ => command | _ => VArr [command] end)))
     (KCommand deviceId)
     (set_next_id (S (next_id st))
        (set_cache (LRU.delete (cache_key deviceId) (cache st)) st)),
   next_id st).
Proof. reflexivity. Qed.



(** ** Time to live and capacity *)

Lemma settle_bounded rid k r st : cache_bounded st -> cache_bounded (settle rid k r st).
Proof.
  unfold cache_bounded, settle. intros H. destruct k.
  - destruct (_ ≫= _); exact H.
  - destruct r; proj; [|exact H]. apply set_bounded; [unfold cache_max; lia|exact H].
  - destruct r; exact H.
Qed.

Lemma reject_all_bounded e ws : forall st,
  cache_bounded st -> cache_bounded (fold_left (reject_waiter e) ws st).
Proof.
  induction ws as [|[[rid cfg] k] ws IH]; intros st H; [exact H|].
  cbn [fold_left]. apply IH. rewrite reject_waiter_eq. now apply settle_bounded.
Qed.

Lemma on_refresh_response_bounded r w st :
  cache_bounded st -> cache_bounded (on_refresh_response r w st).
Proof.
  intros H. unfold on_refresh_response. destruct (refresher st) as [me|]; [|exact H].
  destruct (refreshToken_finish_frame r w (set_refresher None st))
    as (_ & _ & _ & _ & F5 & _).
  destruct (refreshToken_finish r w (set_refresher None st)) as [stf [a|e]];
    cbn [fst] in F5.
  - unfold refresh_succeeded. rewrite flush_resolve. destruct me as [[rid cfg] k].
    rewrite resolve_waiter_eq. unfold cache_bounded, client. proj.
    destruct (resolve_all_frame a (pendingRequests stf)
                (set_isRefreshing false stf)) as (_ & _ & _ & _ & R5 & _).
    rewrite R5. proj. rewrite F5. exact H.
  - unfold refresh_failed. rewrite flush_reject. destruct me as [[rid cfg] k].
    rewrite reject_waiter_eq. apply settle_bounded. unfold cache_bounded. proj.
    apply reject_all_bounded. unfold cache_bounded. proj. rewrite F5. exact H.
Qed.

Lemma on_rejected_bounded rid cfg k status code st :
  cache_bounded st -> cache_bounded (on_rejected rid cfg k status code st).
Proof.
  intros H. unfold on_rejected.
  destruct (bool_decide (status = Some 401) && negb (_retry cfg));
    [|now apply settle_bounded].
  destruct (isRefreshing st); cbn [negb]; [exact H|].
  unfold refreshToken_start. proj.
  destruct (truthy (opt_get (tokens st) "refresh_token")); cbn [negb]; [exact H|].
  unfold refresh_failed. rewrite flush_reject, reject_waiter_eq.
  apply settle_bounded. unfold cache_bounded. proj.
  apply reject_all_bounded. exact H.
Qed.

Lemma step_bounded lib st ev : cache_bounded st -> cache_bounded (step lib st ev).
Proof.
  intros H. destruct ev as [file|code r w| |deviceId|deviceId command|rid r|r w|ms];
    cbn [step].
  - destruct file; exact H.
  - unfold getInitialTokens, _saveTokens. destruct r; [destruct w|]; exact H.
  - exact H.
  - unfold getStatus, cache_bounded.
    pose proof (get_bounded cache_max cache_ttl (now st) (cache_key deviceId) (cache st) H).
    destruct (LRU.get _ _ _ _) as [c cached]. cbn [fst] in *.
    destruct (truthy cached); [exact H0|].
    proj. destruct (statusPromises st !! deviceId); exact H0.
  - unfold cache_bounded. rewrite sendCommand_eq. unfold client. proj.
    now apply delete_bounded.
  - unfold on_response. destruct (inflight st !! rid) as [[cfg k]|]; [|exact H].
    destruct r as [data|status code]; [now apply settle_bounded|].
    destruct (bool_decide _ && _); [exact H|].
    now apply on_rejected_bounded.
  - now apply on_refresh_response_bounded.
  - exact H.
Qed.

Lemma reachable_bounded lib evs : cache_bounded (run lib initial evs).
Proof.
  assert (H : forall st, cache_bounded st -> cache_bounded (run lib st evs)).
  { induction evs as [|ev evs IH]; intros st Hst; [exact Hst|].
    rewrite run_cons. apply IH. now apply step_bounded. }
  apply H. unfold cache_bounded, initial, cache_max. cbn. lia.
Qed.

Lemma getStatus_cached_fresh deviceId st v :
  snd (getStatus deviceId st) = Cached v ->
  exists e, In e (cache st) /\ LRU.key e = cache_key deviceId /\ LRU.val e = v
            /\ now st - LRU.start e <= cache_ttl.
Proof.
  unfold getStatus.
  pose proof (get_hit_fresh cache_ttl (now st) (cache_key deviceId) (cache st)) as Hh.
  destruct (LRU.get _ _ _ _) as [c cached]. cbn [snd] in Hh.
  destruct (truthy cached) eqn:Ht.
  - cbn [snd]. intros Heq. injection Heq as <-.
    apply Hh. intros ->. discriminate.
  - proj. destruct (statusPromises st !! deviceId); discriminate.
Qed.

(** C8, as stated, fails twice.  When the bound is exceeded the entry
    discarded is not the oldest one: "ac0", cached first and read again
    since, stays, and the younger "ac1" goes.  And a read issued after the
    time to live has elapsed triggers no fetch of its own when one is
    already in flight for the device. *)
Lemma eviction_is_by_use_not_by_age :
  (List.length (cache hundred_cached) = 100%nat
   /\ LRU.find (cache_key (dev 0)) (cache hundred_cached) =
      Some (LRU.Entry "status-ac0" (VObj []) 1000)
   /\ LRU.find (cache_key (dev 1)) (cache hundred_cached) =
      Some (LRU.Entry "status-ac1" (VObj []) 1001)
   /\ forallb (fun e => 1000 <=? LRU.start e) (cache hundred_cached) = true
   /\ snd (getStatus (dev 0) hundred_cached) = Cached (VObj [])
   /\ List.length (cache hundred_and_one) = 100%nat
   /\ LRU.find (cache_key (dev 0)) (cache hundred_and_one) =
      Some (LRU.Entry "status-ac0" (VObj []) 1000)
   /\ LRU.find (cache_key (dev 1)) (cache hundred_and_one) = None)
  /\ (LRU.find (cache_key "ac1") (cache stale_cached) =
      Some (LRU.Entry "status-ac1" (VObj []) 1000)
      /\ now stale_cached = 7000
      /\ statusPromises stale_cached !! "ac1" = None
      /\ snd (getStatus "ac1" stale_read_pending) = Pending 1%nat
      /\ sends (trace (fst (getStatus "ac1" stale_read_pending))) =
         sends (trace stale_read_pending)).
Proof. vm_compute. repeat split. Qed.

(** C8, amended. The cache is configured with a time to live of 5000 ms
    and a bound of 100 entries.  A cached snapshot is returned only while
    its age is at most the time to live; a read that finds the entry
    expired sends a new request, or joins the fetch already in flight for
    the device.  In every reachable state the cache holds at most 100
    entries, whatever their age: storing a new key in a full cache discards
    the entry least recently read or written, and a hit makes its entry the
    most recently used one. *)
Theorem cache_ttl_and_capacity (isRetryAllowed : string -> bool) :
  cache_ttl = 5000 /\ cache_max = 100%nat
  /\ (forall deviceId st v,
        snd (getStatus deviceId st) = Cached v ->
        exists e, In e (cache st) /\ LRU.key e = cache_key deviceId /\ LRU.val e = v
                  /\ now st - LRU.start e <= 5000)
  /\ (forall deviceId st e,
        LRU.find (cache_key deviceId) (cache st) = Some e ->
        5000 < now st - LRU.start e ->
        (statusPromises st !! deviceId = None ->
         snd (getStatus deviceId st) = Pending (next_id st)
         /\ sends (trace (fst (getStatus deviceId st))) = S (sends (trace st)))
        /\ (forall p, statusPromises st !! deviceId = Some p ->
            snd (getStatus deviceId st) = Pending p))
  /\ (forall evs, (List.length (cache (run isRetryAllowed initial evs)) <= 100)%nat)
  /\ (forall t k v l,
        LRU.find k l = None -> List.length l = 100%nat ->
        LRU.set cache_max t k v l = LRU.Entry k v t :: List.removelast l)
  /\ (forall t k l e,
        LRU.find k l = Some e -> t - LRU.start e <= 5000 ->
        LRU.get cache_ttl t k l = (e :: LRU.remove k l, LRU.val e)).
Proof.
  split; [reflexivity|]. split; [reflexivity|]. split; [|split; [|split; [|split]]].
  - intros deviceId st v H. apply getStatus_cached_fresh. exact H.
  - intros deviceId st e Hf Hs.
    assert (Hm : truthy (snd (LRU.get cache_ttl (now st) (cache_key deviceId) (cache st)))
                 = false).
    { now rewrite (get_stale cache_ttl (now st) (cache_key deviceId) (cache st) e Hf Hs). }
    split.
    + intros Hp. destruct (getStatus_miss deviceId st Hm Hp) as (M1 & M2 & _).
      rewrite M1, M2. split; reflexivity.
    + intros p Hp. now destruct (getStatus_joins deviceId p st Hm Hp) as (J1 & _).
  - intros evs. apply (reachable_bounded isRetryAllowed evs).
  - intros t k v l Hf Hl. unfold LRU.set. rewrite Hf.
    rewrite bool_decide_eq_true_2; [reflexivity|]. unfold cache_max. lia.
  - intros t k l e Hf Hs. unfold LRU.get. rewrite Hf. unfold LRU.isStale.
    rewrite bool_decide_eq_false_2; [reflexivity|]. unfold cache_ttl. lia.
Qed.

(** * Further properties *)

(** ** What the client does to the cache *)

Lemma cache_ops_trans a b c : cache_ops a b -> cache_ops b c -> cache_ops a c.
Proof.
  intros Hab Hbc. induction Hbc; [exact Hab| | |].
  - apply co_get. now apply IHHbc.
  - apply co_set. now apply IHHbc.
  - apply co_delete. now apply IHHbc.
Qed.

Lemma settle_cache_ops rid k r st : cache_ops (cache st) (cache (settle rid k r st)).
Proof.
  unfold settle. destruct k.
  - destruct (_ ≫= _); apply co_refl.
  - destruct r; proj; [|apply co_refl]. apply co_set, co_refl.
  - destruct r; apply co_refl.
Qed.

Lemma reject_all_cache_ops e ws : forall st,
  cache_ops (cache st) (cache (fold_left (reject_waiter e) ws st)).
Proof.
  induction ws as [|[[rid cfg] k] ws IH]; intros st; [apply co_refl|].
  cbn [fold_left]. eapply cache_ops_trans; [|apply IH].
  rewrite reject_waiter_eq. apply settle_cache_ops.
Qed.

Lemma on_rejected_cache_ops rid cfg k status code st :
  cache_ops (cache st) (cache (on_rejected rid cfg k status code st)).
Proof.
  unfold on_rejected.
  destruct (bool_decide (status = Some 401) && negb (_retry cfg));
    [|apply settle_cache_ops].
  destruct (isRefreshing st); cbn [negb]; [apply co_refl|].
  unfold refreshToken_start. proj.
  destruct (truthy (opt_get (tokens st) "refresh_token")); cbn [negb]; [apply co_refl|].
  unfold refresh_failed. rewrite flush_reject, reject_waiter_eq.
  eapply cache_ops_trans; [|apply settle_cache_ops]. proj.
  apply (reject_all_cache_ops ENoRefreshToken (pendingRequests st)
           (set_isRefreshing false (set_isRefreshing true st))).
Qed.

Lemma on_refresh_response_cache_ops r w st :
  cache_ops (cache st) (cache (on_refresh_response r w st)).
Proof.
  unfold on_refresh_response. destruct (refresher st) as [me|]; [|apply co_refl].
  destruct (refreshToken_finish_frame r w (set_refresher None st))
    as (_ & _ & _ & _ & F5 & _).
  destruct (refreshToken_finish r w (set_refresher None st)) as [stf [a|e]];
    cbn [fst] in F5; proj_all.
  - unfold refresh_succeeded. rewrite flush_resolve. destruct me as [[rid cfg] k].
    rewrite resolve_waiter_eq. unfold client. proj.
    destruct (resolve_all_frame a (pendingRequests stf)
                (set_isRefreshing false stf)) as (_ & _ & _ & _ & R5 & _).
    rewrite R5. proj. rewrite F5. apply co_refl.
  - unfold refresh_failed. rewrite flush_reject. destruct me as [[rid cfg] k].
    rewrite reject_waiter_eq.
    eapply cache_ops_trans; [|apply settle_cache_ops]. proj. rewrite <- F5.
    apply (reject_all_cache_ops e (pendingRequests stf) (set_isRefreshing false stf)).
Qed.

Lemma step_cache_ops lib st ev : cache_ops (cache st) (cache (step lib st ev)).
Proof.
  destruct ev as [file|code r w| |deviceId|deviceId command|rid r|r w|ms]; cbn [step].
  - destruct file; apply co_refl.
  - unfold getInitialTokens, _saveTokens. destruct r; [destruct w|]; apply co_refl.
  - apply co_refl.
  - unfold getStatus.
    pose proof (co_get (now st) (cache_key deviceId) _ _ (co_refl (cache st))) as H.
    destruct (LRU.get _ _ _ _) as [c cached]. cbn [fst] in H.
    destruct (truthy cached); [exact H|].
    proj. destruct (statusPromises st !! deviceId); exact H.
  - rewrite sendCommand_eq. unfold client. proj. apply co_delete, co_refl.
  - unfold on_response. destruct (inflight st !! rid) as [[cfg k]|]; [|apply co_refl].
    destruct r as [data|status code].
    + apply (settle_cache_ops rid k (Ok data) (set_inflight (delete rid (inflight st)) st)).
    + destruct (bool_decide _ && _); [apply co_refl|].
      apply (on_rejected_cache_ops rid cfg k status code
               (set_inflight (delete rid (inflight st)) st)).
  - apply on_refresh_response_cache_ops.
  - apply co_refl.
Qed.

Lemma run_cache_ops lib evs : forall st, cache_ops (cache st) (cache (run lib st evs)).
Proof.
  induction evs as [|ev evs IH]; intros st; [apply co_refl|].
  rewrite run_cons. eapply cache_ops_trans; [apply step_cache_ops|apply IH].
Qed.

(** ** Well-formed cache *)

Lemma find_none_key k l : LRU.find k l = None -> k ∉ List.map LRU.key l.
Proof.
  unfold LRU.find. induction l as [|e l IH]; [intros _; apply not_elem_of_nil|].
  cbn [List.find List.map]. destruct (String.eqb (LRU.key e) k) eqn:E; [discriminate|].
  intros H. apply not_elem_of_cons. split; [|now apply IH].
  intros Heq. rewrite <- Heq, String.eqb_refl in E. discriminate.
Qed.

Lemma remove_keys k l x : x ∈ List.map LRU.key (LRU.remove k l) ->
  x ∈ List.map LRU.key l /\ x <> k.
Proof.
  unfold LRU.remove. induction l as [|e l IH]; cbn [List.filter List.map].
  - intros H. now apply elem_of_nil in H.
  - destruct (String.eqb (LRU.key e) k) eqn:E; cbn [negb List.map].
    + intros H. destruct (IH H) as [H1 H2]. split; [now apply list_elem_of_further|exact H2].
    + intros H. apply elem_of_cons in H as [->|H].
      * split; [apply list_elem_of_here|].
        intros Heq. rewrite Heq, String.eqb_refl in E. discriminate.
      * destruct (IH H) as [H1 H2]. split; [now apply list_elem_of_further|exact H2].
Qed.

Lemma remove_nodup k l :
  NoDup (List.map LRU.key l) -> NoDup (List.map LRU.key (LRU.remove k l)).
Proof.
  induction l as [|e l IH]; [intros H; exact H|].
  cbn [List.map]. intros H. apply NoDup_cons in H as [Hn Hd].
  unfold LRU.remove. cbn [List.filter].
  destruct (String.eqb (LRU.key e) k); cbn [negb List.map]; [now apply IH|].
  apply NoDup_cons. split; [|now apply IH].
  intros Hin. apply Hn. now apply (remove_keys k l).
Qed.

Lemma removelast_keys (l : list LRU.entry) x :
  x ∈ List.map LRU.key (List.removelast l) -> x ∈ List.map LRU.key l.
Proof.
  induction l as [|e l IH]; [intros H; exact H|].
  destruct l as [|e' l]; [intros H; now apply elem_of_nil in H|].
  cbn [List.removelast List.map] in *. intros H.
  apply elem_of_cons in H as [->|H]; [apply list_elem_of_here|].
  apply list_elem_of_further. now apply IH.
Qed.

Lemma removelast_nodup (l : list LRU.entry) :
  NoDup (List.map LRU.key l) -> NoDup (List.map LRU.key (List.removelast l)).
Proof.
  induction l as [|e l IH]; [intros H; exact H|].
  destruct l as [|e' l]; [intros _; apply NoDup_nil_2|].
  cbn [List.removelast List.map] in *. intros H.
  apply NoDup_cons in H as [Hn Hd]. apply NoDup_cons. split; [|now apply IH].
  intros Hin. apply Hn. now apply (removelast_keys (e' :: l)).
Qed.

Lemma removelast_In {A} (l : list A) x : In x (List.removelast l) -> In x l.
Proof.
  induction l as [|y l IH]; [intros H; exact H|].
  destruct l as [|z l]; [intros []|].
  cbn [List.removelast] in *. intros [->|H]; [now left|right; now apply IH].
Qed.

Lemma remove_In k l x : In x (LRU.remove k l) -> In x l.
Proof. unfold LRU.remove. intros H. now apply List.filter_In in H as [H _]. Qed.

Lemma cache_wf_ops l l' : cache_ops l l' -> cache_wf l -> cache_wf l'.
Proof.
  induction 1 as [l|t k l l' Hops IH|t deviceId body l l' Hops IH|deviceId l l' Hops IH];
    intros Hwf; [exact Hwf| | |]; specialize (IH Hwf); destruct IH as [Hall Hnd].
  - unfold LRU.get. destruct (LRU.find k l') as [e|] eqn:E; [|split; assumption].
    destruct (find_key k l' e E) as [Hin Hk].
    assert (Hrem : cache_wf (LRU.remove k l')).
    { split; [|now apply remove_nodup].
      apply List.Forall_forall. intros x Hx.
      apply (proj1 (List.Forall_forall _ _) Hall). now apply (remove_In k). }
    destruct (LRU.isStale cache_ttl t e); cbn [fst]; [exact Hrem|].
    destruct Hrem as [Hall' Hnd']. split.
    + apply List.Forall_cons; [|exact Hall'].
      now apply (proj1 (List.Forall_forall _ _) Hall).
    + cbn [List.map]. apply NoDup_cons. split; [|exact Hnd'].
      intros Hx. apply remove_keys in Hx as [_ Hx]. now apply Hx.
  - assert (Hnew : truthy (LRU.val (LRU.Entry (cache_key deviceId)
                                      (status_snapshot body) t)) = true
                   /\ exists d, LRU.key (LRU.Entry (cache_key deviceId)
                                          (status_snapshot body) t) = cache_key d).
    { split; [apply status_snapshot_truthy|now exists deviceId]. }
    unfold LRU.set. destruct (LRU.find (cache_key deviceId) l') as [e|] eqn:E.
    + split.
      * apply List.Forall_cons; [exact Hnew|].
        apply List.Forall_forall. intros x Hx.
        apply (proj1 (List.Forall_forall _ _) Hall). now apply (remove_In (cache_key deviceId)).
      * cbn [List.map LRU.key]. apply NoDup_cons. split; [|now apply remove_nodup].
        intros Hx. apply remove_keys in Hx as [_ Hx]. now apply Hx.
    + pose proof (find_none_key _ _ E) as Hk.
      case_bool_decide; split.
      * apply List.Forall_cons; [exact Hnew|].
        apply List.Forall_forall. intros x Hx.
        apply (proj1 (List.Forall_forall _ _) Hall). now apply removelast_In.
      * cbn [List.map LRU.key]. apply NoDup_cons. split; [|now apply removelast_nodup].
        intros Hx. apply Hk. now apply removelast_keys.
      * apply List.Forall_cons; [exact Hnew|exact Hall].
      * cbn [List.map LRU.key]. apply NoDup_cons. split; assumption.
  - unfold LRU.delete. split; [|now apply remove_nodup].
    apply List.Forall_forall. intros x Hx.
    apply (proj1 (List.Forall_forall _ _) Hall). now apply (remove_In (cache_key deviceId)).
Qed.

Lemma initial_cache_wf : cache_wf (cache initial).
Proof. split; [apply List.Forall_nil|apply NoDup_nil_2]. Qed.

Lemma run_cache_wf lib evs st : cache_wf (cache st) -> cache_wf (cache (run lib st evs)).
Proof. apply cache_wf_ops, run_cache_ops. Qed.

(** X1. In every reachable state the cache is well formed: every entry
    holds a truthy snapshot under the key of a device, and no device has
    two entries; so the test [if (cached)] never takes a hit for a miss. *)
Theorem reachable_cache_wf (isRetryAllowed : string -> bool) (evs : list Event) :
  cache_wf (cache (run isRetryAllowed initial evs)).
Proof.
  apply (cache_wf_ops (cache initial)).
  - apply run_cache_ops.
  - apply initial_cache_wf.
Qed.

(** ** Serving from the cache *)

Lemma get_snd ttl t k l :
  snd (LRU.get ttl t k l) =
  match LRU.find k l with
  | Some e => if LRU.isStale ttl t e then VUndefined else LRU.val e
  | None => VUndefined
  end.
Proof.
  unfold LRU.get. destruct (LRU.find k l) as [e|]; [|reflexivity].
  destruct (LRU.isStale ttl t e); reflexivity.
Qed.

Lemma reachable_entry_truthy lib evs e :
  In e (cache (run lib initial evs)) -> truthy (LRU.val e) = true.
Proof.
  intros Hin. destruct (run_cache_wf lib evs initial initial_cache_wf) as [Hall _].
  now apply (proj1 (List.Forall_forall _ _) Hall e Hin).
Qed.

(** X2. In a reachable state, a read that finds an entry no older than
    5000 ms is answered from the cache: nothing is sent, no promise is
    registered, and the entry only moves to the front; its time stamp is
    kept, so reading a snapshot does not prolong its life. *)
Theorem cache_hit_served (isRetryAllowed : string -> bool) (evs : list Event)
  (deviceId : string) (e : LRU.entry) :
  LRU.find (cache_key deviceId) (cache (run isRetryAllowed initial evs)) = Some e ->
  now (run isRetryAllowed initial evs) - LRU.start e <= 5000 ->
  getStatus deviceId (run isRetryAllowed initial evs) =
    (set_cache (e :: LRU.remove (cache_key deviceId)
                       (cache (run isRetryAllowed initial evs)))
       (run isRetryAllowed initial evs),
     Cached (LRU.val e))
  /\ LRU.find (cache_key deviceId)
       (cache (fst (getStatus deviceId (run isRetryAllowed initial evs)))) = Some e.
Proof.
  intros Hf Hage. set (st := run isRetryAllowed initial evs) in *.
  destruct (find_key _ _ _ Hf) as [Hin Hk].
  pose proof (reachable_entry_truthy isRetryAllowed evs e Hin) as Ht.
  assert (Hg : getStatus deviceId st =
               (set_cache (e :: LRU.remove (cache_key deviceId) (cache st)) st,
                Cached (LRU.val e))).
  { unfold getStatus, LRU.get. rewrite Hf. unfold LRU.isStale.
    rewrite bool_decide_eq_false_2 by (unfold cache_ttl; lia).
    now rewrite Ht. }
  rewrite Hg. split; [reflexivity|]. proj.
  unfold LRU.find. cbn [List.find]. now rewrite Hk, String.eqb_refl.
Qed.

Lemma cache_hit_served_witness :
  snd (getStatus "ac1"
         (run (fun _ => true) initial
            [Tick 1000%N; CallGetStatus "ac1"; Response 0%nat (HOk (VObj []));
             Tick 4000%N])) =
  Cached (VObj []).
Proof.
  destruct (cache_hit_served (fun _ => true)
              [Tick 1000%N; CallGetStatus "ac1"; Response 0%nat (HOk (VObj []));
               Tick 4000%N]
              "ac1" (LRU.Entry "status-ac1" (VObj []) 1000)) as (H & _).
  - vm_compute. reflexivity.
  - vm_compute. discriminate.
  - rewrite H. reflexivity.
Defined.

(** ** Commands touch one device only *)

Lemma cache_key_inj a b : cache_key a = cache_key b -> a = b.
Proof. unfold cache_key. cbn. intros H. now injection H. Qed.

Lemma find_remove_ne k k' l : k <> k' -> LRU.find k' (LRU.remove k l) = LRU.find k' l.
Proof.
  intros Hne. unfold LRU.find, LRU.remove. induction l as [|e l IH]; [reflexivity|].
  cbn [List.filter List.find].
  destruct (String.eqb (LRU.key e) k) eqn:E; cbn [negb].
  - apply String.eqb_eq in E.
    destruct (String.eqb (LRU.key e) k') eqn:E'; [|exact IH].
    apply String.eqb_eq in E'. congruence.
  - cbn [List.find]. destruct (String.eqb (LRU.key e) k'); [reflexivity|exact IH].
Qed.

(** X3. A command for one device leaves the cached snapshot of every
    other device, and every status fetch in flight, as they were: a read of
    another device that was served from the cache before the command is
    served the same snapshot after it. *)
Theorem command_leaves_other_devices (deviceId other : string) (command : value)
  (st : State) :
  deviceId <> other ->
  LRU.find (cache_key other) (cache (fst (sendCommand deviceId command st))) =
    LRU.find (cache_key other) (cache st)
  /\ statusPromises (fst (sendCommand deviceId command st)) = statusPromises st
  /\ forall v, snd (getStatus other st) = Cached v ->
       snd (getStatus other (fst (sendCommand deviceId command st))) = Cached v.
Proof.
  intros Hne. rewrite sendCommand_eq. unfold client. proj.
  assert (Hf : LRU.find (cache_key other)
                 (LRU.delete (cache_key deviceId) (cache st)) =
               LRU.find (cache_key other) (cache st)).
  { apply find_remove_ne. intros H. apply Hne. now apply cache_key_inj. }
  split; [exact Hf|]. split; [reflexivity|].
  intros v. unfold getStatus.
  pose proof (get_snd cache_ttl (now st) (cache_key other) (cache st)) as G1.
  pose proof (get_snd cache_ttl (now st) (cache_key other)
                (LRU.delete (cache_key deviceId) (cache st))) as G2.
  rewrite Hf, <- G1 in G2. proj.
  destruct (LRU.get cache_ttl (now st) (cache_key other) (cache st)) as [c cached].
  destruct (LRU.get cache_ttl (now st) (cache_key other)
              (LRU.delete (cache_key deviceId) (cache st))) as [c' cached'].
  cbn [snd] in G2. subst cached'.
  destruct (truthy cached); [cbn [snd]; intros H; exact H|].
  proj. destruct (statusPromises st !! other); discriminate.
Qed.

Lemma command_leaves_other_devices_witness :
  snd (getStatus "ac2"
         (fst (sendCommand "ac1" switch_on
                 (run (fun _ => true) initial
                    [Tick 1000%N; CallGetStatus "ac2"; Response 0%nat (HOk (VObj []))]))))
  = Cached (VObj []).
Proof.
  destruct (command_leaves_other_devices "ac1" "ac2" switch_on
              (run (fun _ => true) initial
                 [Tick 1000%N; CallGetStatus "ac2"; Response 0%nat (HOk (VObj []))]))
    as (_ & _ & H).
  - discriminate.
  - apply H. vm_compute. reflexivity.
Defined.

(** ** Setters and getters agree *)

Lemma getCap_snapshot body capability attribute def :
  _getCap (Ok (status_snapshot body)) capability attribute def =
  Ok (if nullish (opt_get (opt_get (capability_object (status_snapshot body) capability)
                             attribute) "value")
      then def
      else opt_get (opt_get (capability_object (status_snapshot body) capability)
                      attribute) "value").
Proof.
  unfold _getCap. cbn [mbind Result_bind].
  apply getCap_of_truthy, status_snapshot_truthy.
Qed.

Lemma sendCommand_posts deviceId command st :
  endpoint <$> (fst <$> inflight (fst (sendCommand deviceId command st)) !! next_id st) =
  Some (DeviceCommands deviceId
          (match command with VArr _ => command | _ => VArr [command] end)).
Proof.
  rewrite sendCommand_eq. cbn [fst]. rewrite client_inflight, lookup_insert_eq.
  cbn [fmap option_fmap option_map fst]. f_equal. apply inject_fields.
Qed.

(** X4. Each setter posts one request whose body is a one-element array
    holding its command object (an array given to [sendCommand] is posted
    as it is), and the getters read back what the setters write: on a
    snapshot whose attribute value is the word the setter sends, [getPower],
    [getWindFree] and [getAutoClean] return the boolean that was set. *)
Theorem setters_getters_agree (deviceId : string) (b : value) (body : value)
  (st : State) :
  (endpoint <$> (fst <$> inflight (fst (setPower deviceId b st)) !! next_id st) =
     Some (DeviceCommands deviceId (VArr [setPower_command b]))
   /\ endpoint <$> (fst <$> inflight (fst (setWindFree deviceId b st)) !! next_id st) =
      Some (DeviceCommands deviceId (VArr [setWindFree_command b]))
   /\ endpoint <$> (fst <$> inflight (fst (setAutoClean deviceId b st)) !! next_id st) =
      Some (DeviceCommands deviceId (VArr [setAutoClean_command b]))
   /\ endpoint <$> (fst <$> inflight (fst (setMode deviceId b st)) !! next_id st) =
      Some (DeviceCommands deviceId (VArr [setMode_command b]))
   /\ endpoint <$> (fst <$> inflight (fst (setTemperature deviceId b st)) !! next_id st) =
      Some (DeviceCommands deviceId (VArr [setTemperature_command b]))
   /\ forall cmds,
        endpoint <$> (fst <$> inflight (fst (sendCommand deviceId (VArr cmds) st))
                                !! next_id st) =
        Some (DeviceCommands deviceId (VArr cmds)))
  /\ (opt_get (opt_get (capability_object (status_snapshot body) "switch") "switch")
        "value" = opt_get (setPower_command b) "command" ->
      getPower (Ok (status_snapshot body)) = Ok (truthy b))
  /\ (opt_get (opt_get (capability_object (status_snapshot body)
                          "custom.airConditionerOptionalMode") "acOptionalMode")
        "value" = opt_get (opt_get (setWindFree_command b) "arguments") "0" ->
      getWindFree (Ok (status_snapshot body)) = Ok (truthy b))
  /\ (opt_get (opt_get (capability_object (status_snapshot body)
                          "custom.autoCleaningMode") "autoCleaningMode")
        "value" = opt_get (opt_get (setAutoClean_command b) "arguments") "0" ->
      getAutoClean (Ok (status_snapshot body)) = Ok (truthy b)).
Proof.
  split.
  { unfold setPower, setWindFree, setAutoClean, setMode, setTemperature.
    repeat split; try intros cmds; apply sendCommand_posts. }
  unfold getPower, getWindFree, getAutoClean. rewrite !getCap_snapshot.
  repeat split; intros ->;
    unfold setPower_command, setWindFree_command, setAutoClean_command;
    destruct (truthy b); reflexivity.
Qed.

Lemma setters_getters_agree_witness :
  getWindFree
    (Ok (status_snapshot
           (VObj [("components", VObj [("main",
              VObj [("custom.airConditionerOptionalMode",
                     VObj [("acOptionalMode", VObj [("value", VStr "windFree")])])])])])))
  = Ok true.
Proof.
  destruct (setters_getters_agree "ac1" (VBool true)
              (VObj [("components", VObj [("main",
                 VObj [("custom.airConditionerOptionalMode",
                        VObj [("acOptionalMode", VObj [("value", VStr "windFree")])])])])])
              initial) as (_ & _ & H & _).
  apply H. reflexivity.
Defined.

(** ** How a failure reaches the caller *)

(** X5. A failure that is neither retried nor handled as a 401 settles
    the request at once.  [getDevices] and [sendCommand] hand the error of
    the client to their caller unchanged; [getStatus] hands over its own
    status error instead, removes the in-flight entry and leaves the cache
    as it was. *)
Theorem failure_reaches_caller (isRetryAllowed : string -> bool) (rid : nat)
  (cfg : Config) (k : Cont) (status : option Z) (code : string) (st : State) :
  inflight st !! rid = Some (cfg, k) ->
  (retries <= retryCount cfg)%nat \/ retryCondition isRetryAllowed cfg status code = false ->
  status <> Some 401 \/ _retry cfg = true ->
  trace (on_response isRetryAllowed rid (HFail status code) st) =
    match k with
    | KDevices =>
        Settle rid (Err (EAxios status code)) :: Log DevicesFailed
          :: ClientSettle rid (Err (EAxios status code)) :: trace st
    | KStatus deviceId =>
        Settle rid (Err (EStatusFailed deviceId)) :: Log (StatusFailed deviceId)
          :: ClientSettle rid (Err (EAxios status code)) :: trace st
    | KCommand deviceId =>
        Settle rid (Err (EAxios status code)) :: Log (CommandFailed deviceId)
          :: ClientSettle rid (Err (EAxios status code)) :: trace st
    end
  /\ cache (on_response isRetryAllowed rid (HFail status code) st) = cache st
  /\ statusPromises (on_response isRetryAllowed rid (HFail status code) st) =
     promises_after k (statusPromises st)
  /\ inflight (on_response isRetryAllowed rid (HFail status code) st) =
     delete rid (inflight st)
  /\ tokens (on_response isRetryAllowed rid (HFail status code) st) = tokens st.
Proof.
  intros Hin Hno Hsurf.
  rewrite (on_response_no_retry isRetryAllowed rid cfg k status code st Hin Hno).
  rewrite (on_rejected_surfaces rid cfg k status code _ Hsurf).
  unfold settle, promises_after. destruct k; cbn [mbind Result_bind]; proj; repeat split.
Qed.

Lemma failure_reaches_caller_witness :
  trace (on_response (fun _ => true) 0%nat (HFail (Some 404) "ERR_BAD_REQUEST")
           (fst (getStatus "ac1" initial))) =
  Settle 0%nat (Err (EStatusFailed "ac1")) :: Log (StatusFailed "ac1")
    :: ClientSettle 0%nat (Err (EAxios (Some 404) "ERR_BAD_REQUEST"))
    :: trace (fst (getStatus "ac1" initial)).
Proof.
  destruct (failure_reaches_caller (fun _ => true) 0%nat
              (new_request (DeviceStatus "ac1")) (KStatus "ac1") (Some 404)
              "ERR_BAD_REQUEST" (fst (getStatus "ac1" initial))) as (H & _).
  - vm_compute. reflexivity.
  - right. vm_compute. reflexivity.
  - left. discriminate.
  - exact H.
Defined.

(** ** The code exchange *)

(** X6. [getInitialTokens] touches nothing but the tokens: the requests in
    flight, the status promises, the cache and the refresh coordinator stay
    as they are.  When the token endpoint refuses the code, the tokens in
    memory stay as they were, nothing is written, and the caller gets the
    fixed initial-token error whatever the cause; when it answers and the
    write succeeds, the next request carries the new access token. *)
Theorem code_exchange_effects (code : string) (r : HttpResult) (write_ok : bool)
  (st : State) :
  (inflight (fst (getInitialTokens code r write_ok st)) = inflight st
   /\ statusPromises (fst (getInitialTokens code r write_ok st)) = statusPromises st
   /\ cache (fst (getInitialTokens code r write_ok st)) = cache st
   /\ isRefreshing (fst (getInitialTokens code r write_ok st)) = isRefreshing st
   /\ pendingRequests (fst (getInitialTokens code r write_ok st)) = pendingRequests st)
  /\ (forall status c, r = HFail status c ->
        getInitialTokens code r write_ok st =
        (emit (Log InitialTokensFailed) (emit (NetExchange code) st), Err EInitialTokens))
  /\ (forall data, r = HOk data -> write_ok = true ->
        snd (getInitialTokens code r write_ok st) = Ok tt
        /\ trace (fst (getDevices (fst (getInitialTokens code r write_ok st)))) =
           NetSend (next_id st) (inject data (new_request Devices))
             :: Log TokensSaved :: FileWrite data :: NetExchange code :: trace st).
Proof.
  split; [|split].
  - unfold getInitialTokens, _saveTokens.
    destruct r as [data|s c]; [destruct write_ok|]; repeat split.
  - intros status c ->. reflexivity.
  - intros data -> ->. split; reflexivity.
Qed.

(** ** Token rotation, end to end *)

(** X7. Stored tokens with an access token and a refresh token are
    loaded; the first request carries the stored access token; answered
    401, it makes the client post the stored refresh token; the new tokens
    are written to the file before the request is sent again, marked as
    retried, with the new access token; these are then the tokens held. *)
Theorem token_rotation (isRetryAllowed : string -> bool) (toks data newAccess : value)
  (code : string) :
  truthy (opt_get toks "access_token") = true ->
  truthy (opt_get toks "refresh_token") = true ->
  member data "access_token" = Ok newAccess ->
  trace (run isRetryAllowed (fst (init (Some toks) initial))
           [CallGetDevices; Response 0%nat (HFail (Some 401) code);
            RefreshResponse (HOk data) true]) =
    [NetSend 0%nat (mkConfig Devices (Some (Bearer newAccess)) true 0);
     Log TokensSaved;
     FileWrite data;
     NetRefresh (opt_get toks "refresh_token");
     NetSend 0%nat (mkConfig Devices (Some (Bearer (opt_get toks "access_token"))) false 0);
     Log TokensLoaded]
  /\ tokens (run isRetryAllowed (fst (init (Some toks) initial))
               [CallGetDevices; Response 0%nat (HFail (Some 401) code);
                RefreshResponse (HOk data) true]) = data.
Proof.
  intros Ha Hr Hd.
  set (s0 := fst (init (Some toks) initial)).
  assert (Hcfg : inject toks (new_request Devices) =
                 mkConfig Devices (Some (Bearer (opt_get toks "access_token"))) false 0).
  { unfold inject. rewrite Ha. reflexivity. }
  rewrite !run_cons. cbn [run fold_left step].
  set (s1 := fst (getDevices s0)).
  assert (Hin : inflight s1 !! 0%nat =
                Some (mkConfig Devices (Some (Bearer (opt_get toks "access_token")))
                        false 0, KDevices)).
  { unfold s1, getDevices. cbn [fst]. rewrite client_inflight, lookup_insert_eq.
    unfold s0. cbn [init fst]. proj. now rewrite Hcfg. }
  rewrite (first_401_refreshes isRetryAllowed 0%nat _ KDevices code s1 Hin);
    [|reflexivity|reflexivity|exact Hr].
  subst s1 s0. unfold getDevices. cbn [init fst]. unfold client at 1 2 3. proj.
  unfold on_refresh_response. proj.
  unfold refreshToken_finish, _saveTokens. proj. rewrite Hd. cbn [mbind Result_bind].
  unfold refresh_succeeded. rewrite flush_resolve. unfold initial. proj.
  cbn [fold_left]. rewrite resolve_waiter_eq. unfold client. proj.
  destruct (replayed_fields data newAccess
              (set__retry true
                 (mkConfig Devices (Some (Bearer (opt_get toks "access_token"))) false 0))
              (member_opt_get _ _ _ Hd)) as (A1 & A2 & A3 & A4).
  unfold replayed in *.
  assert (Hrep : inject data
                   (set_Authorization (Some (Bearer newAccess))
                      (set__retry true
                         (mkConfig Devices
                            (Some (Bearer (opt_get toks "access_token"))) false 0))) =
                 mkConfig Devices (Some (Bearer newAccess)) true 0).
  { destruct (inject data _) as [ep au re rc]. cbn in A1, A2, A3, A4. now subst. }
  rewrite Hrep, Hcfg. split; reflexivity.
Qed.

Lemma token_rotation_witness :
  tokens (run (fun _ => true) (fst (init (Some (credential "A1" "R1")) initial))
            [CallGetDevices; Response 0%nat (HFail (Some 401) "ERR_BAD_REQUEST");
             RefreshResponse (HOk (credential "A2" "R2")) true]) = credential "A2" "R2".
Proof.
  destruct (token_rotation (fun _ => true) (credential "A1" "R1") (credential "A2" "R2")
              (VStr "A2") "ERR_BAD_REQUEST" eq_refl eq_refl eq_refl) as (_ & H).
  exact H.
Defined.

(** ** Live requests *)





























(** ** Requests carry the token held *)

Lemma ext_refl P st st' : trace st' = trace st -> extends_with P st st'.
Proof. intros H. exists []. split; [exact H|apply List.Forall_nil]. Qed.

Lemma ext_trans P a b c : extends_with P a b -> extends_with P b c -> extends_with P a c.
Proof.
  intros (n1 & H1 & F1) (n2 & H2 & F2). exists (n2 ++ n1)%list. split.
  - now rewrite H2, H1, app_assoc.
  - apply List.Forall_app. split; assumption.
Qed.

Lemma ext_mono (P Q : Effect -> Prop) a b :
  (forall e, P e -> Q e) -> extends_with P a b -> extends_with Q a b.
Proof.
  intros HPQ (n & H & F). exists n. split; [exact H|].
  eapply List.Forall_impl; [exact HPQ|exact F].
Qed.

Lemma ext_cons (P : Effect -> Prop) e a b :
  trace b = e :: trace a -> P e -> extends_with P a b.
Proof. intros H He. exists [e]. split; [exact H|]. apply List.Forall_cons; [exact He|apply List.Forall_nil]. Qed.

Lemma silent_carries toks e : silent e -> carries toks e.
Proof. destruct e; cbn; try discriminate; auto. Qed.

Lemma ext_silent toks a b : extends_with silent a b -> extends_with (carries toks) a b.
Proof. apply ext_mono, silent_carries. Qed.

Lemma inject_carries toks rid cfg : carries toks (NetSend rid (inject toks cfg)).
Proof. cbn. unfold inject. intros H. now rewrite H. Qed.

Lemma client_carries rid cfg k st :
  extends_with (carries (tokens st)) st (client rid cfg k st).
Proof. eapply ext_cons; [apply client_trace|apply inject_carries]. Qed.

Lemma settle_silent rid k r st : extends_with silent st (settle rid k r st).
Proof.
  unfold settle. destruct k.
  - destruct (_ ≫= _).
    + eexists [_; _]. split; [reflexivity|]. repeat constructor.
    + eexists [_; _; _]. split; [reflexivity|]. repeat constructor.
  - destruct r.
    + eexists [_; _]. split; [reflexivity|]. repeat constructor.
    + eexists [_; _; _]. split; [reflexivity|]. repeat constructor.
  - destruct r.
    + eexists [_; _; _]. split; [reflexivity|]. repeat constructor.
    + eexists [_; _; _]. split; [reflexivity|]. repeat constructor.
Qed.

Lemma resolve_all_carries a ws : forall st,
  extends_with (carries (tokens st)) st (fold_left (resolve_waiter a) ws st).
Proof.
  induction ws as [|[[rid cfg] k] ws IH]; intros st; [now apply ext_refl|].
  cbn [fold_left].
  apply (ext_trans _ _ (resolve_waiter a st (rid, cfg, k)));
    [rewrite resolve_waiter_eq; apply client_carries|].
  exact (IH (resolve_waiter a st (rid, cfg, k))).
Qed.

Lemma reject_all_silent e ws : forall st,
  extends_with silent st (fold_left (reject_waiter e) ws st).
Proof.
  induction ws as [|[[rid cfg] k] ws IH]; intros st; [now apply ext_refl|].
  cbn [fold_left]. eapply ext_trans; [|apply IH].
  rewrite reject_waiter_eq. apply settle_silent.
Qed.

Lemma refresh_failed_silent me e st : extends_with silent st (refresh_failed me e st).
Proof.
  unfold refresh_failed. rewrite flush_reject. destruct me as [[rid cfg] k].
  rewrite reject_waiter_eq. eapply ext_trans; [|apply settle_silent].
  eapply ext_trans; [apply (reject_all_silent e (pendingRequests st) (set_isRefreshing false st))|].
  eapply ext_cons; [reflexivity|reflexivity].
Qed.

Lemma refresh_failed_tokens me e st : tokens (refresh_failed me e st) = tokens st.
Proof.
  unfold refresh_failed. rewrite flush_reject. destruct me as [[rid cfg] k].
  rewrite reject_waiter_eq.
  destruct (settle_frame rid k (Err e)
              (emit (Log RefreshFailedReauth)
                 (set_pendingRequests []
                    (fold_left (reject_waiter e) (pendingRequests (set_isRefreshing false st))
                       (set_isRefreshing false st))))) as (F1 & _).
  rewrite F1. proj.
  destruct (reject_all_frame e (pendingRequests st) (set_isRefreshing false st)) as (R1 & _).
  exact R1.
Qed.

Lemma refresh_succeeded_carries me a st :
  extends_with (carries (tokens st)) st (refresh_succeeded me a st)
  /\ tokens (refresh_succeeded me a st) = tokens st.
Proof.
  unfold refresh_succeeded. rewrite flush_resolve. destruct me as [[rid cfg] k].
  rewrite resolve_waiter_eq.
  change (pendingRequests (set_isRefreshing false st)) with (pendingRequests st).
  pose proof (resolve_all_carries a (pendingRequests st) (set_isRefreshing false st)) as Hc.
  destruct (resolve_all_frame a (pendingRequests st) (set_isRefreshing false st))
    as (R1 & _).
  set (s2 := fold_left (resolve_waiter a) (pendingRequests st) (set_isRefreshing false st))
    in *.
  change (tokens (set_isRefreshing false st)) with (tokens st) in *.
  split.
  - apply (ext_trans _ _ s2).
    + destruct Hc as (n & Hn & Fn). exists n. split; [exact Hn|exact Fn].
    + eapply ext_cons; [reflexivity|]. proj. rewrite <- R1. apply inject_carries.
  - unfold client. proj. exact R1.
Qed.

Lemma on_rejected_silent rid cfg k status code st :
  extends_with silent st (on_rejected rid cfg k status code st)
  /\ tokens (on_rejected rid cfg k status code st) = tokens st.
Proof.
  unfold on_rejected.
  destruct (bool_decide (status = Some 401) && negb (_retry cfg));
    [|split; [apply settle_silent|apply settle_frame]].
  destruct (isRefreshing st); cbn [negb]; [split; [now apply ext_refl|reflexivity]|].
  unfold refreshToken_start. proj.
  destruct (truthy (opt_get (tokens st) "refresh_token")); cbn [negb].
  - split; [|reflexivity]. eapply ext_cons; [reflexivity|reflexivity].
  - split.
    + apply (ext_trans _ _ (set_isRefreshing true st));
        [now apply ext_refl|apply refresh_failed_silent].
    + exact (refresh_failed_tokens _ _ (set_isRefreshing true st)).
Qed.

Ltac appended :=
  first [ exists []; split; [reflexivity|repeat constructor]
        | eexists [_]; split; [reflexivity|repeat constructor]
        | eexists [_; _]; split; [reflexivity|repeat constructor]
        | eexists [_; _; _]; split; [reflexivity|repeat constructor] ].

Lemma refreshToken_finish_silent r w st :
  extends_with silent st (fst (refreshToken_finish r w st)).
Proof.
  unfold refreshToken_finish, _saveTokens.
  destruct r as [data|s c]; [destruct w|]; cbn [mbind Result_bind]; proj;
    try destruct (member data "access_token"); proj; appended.
Qed.

(** X11. Whatever happens in a step, every request it sends or sends
    again carries the access token the client holds when the step is over,
    if it holds one: a first transmission, a retry, and a replay after a
    refresh alike; no request goes out with a token that was already
    replaced. *)
Theorem requests_carry_current_token (isRetryAllowed : string -> bool) (st : State)
  (ev : Event) :
  extends_with (carries (tokens (step isRetryAllowed st ev))) st (step isRetryAllowed st ev).
Proof.
  destruct ev as [file|code r w| |deviceId|deviceId command|rid r|r w|ms]; cbn [step].
  - apply ext_silent. destruct file; (eapply ext_cons; [reflexivity|reflexivity]).
  - apply ext_silent. unfold getInitialTokens, _saveTokens.
    destruct r; [destruct w|]; proj.
    + eexists [_; _; _]. split; [reflexivity|]. repeat constructor.
    + eexists [_; _; _]. split; [reflexivity|]. repeat constructor.
    + eexists [_; _]. split; [reflexivity|]. repeat constructor.
  - unfold getDevices. cbn [fst].
    apply (client_carries _ _ _ (set_next_id (S (next_id st)) st)).
  - unfold getStatus. destruct (LRU.get _ _ _ _) as [c cached].
    destruct (truthy cached); [now apply ext_refl|]. proj.
    destruct (statusPromises st !! deviceId); [now apply ext_refl|]. cbn [fst].
    eapply ext_cons; [reflexivity|]. apply inject_carries.
  - rewrite sendCommand_eq. cbn [fst].
    eapply ext_cons; [reflexivity|]. apply inject_carries.
  - unfold on_response. destruct (inflight st !! rid) as [[cfg k]|]; [|now apply ext_refl].
    destruct r as [data|status code].
    + destruct (settle_frame rid k (Ok data) (set_inflight (delete rid (inflight st)) st))
        as (F1 & _).
      apply ext_silent.
      apply (settle_silent rid k (Ok data) (set_inflight (delete rid (inflight st)) st)).
    + destruct (bool_decide _ && _).
      * eexists [_; _; _]. split; [reflexivity|].
        apply List.Forall_cons; [apply inject_carries|].
        repeat constructor.
      * apply ext_silent.
        apply (on_rejected_silent rid cfg k status code
                 (set_inflight (delete rid (inflight st)) st)).
  - unfold on_refresh_response. destruct (refresher st) as [me|]; [|now apply ext_refl].
    pose proof (refreshToken_finish_silent r w (set_refresher None st)) as Hs.
    destruct (refreshToken_finish r w (set_refresher None st)) as [stf [a|e]];
      cbn [fst] in Hs.
    + destruct (refresh_succeeded_carries me a stf) as [Hc Ht]. rewrite Ht.
      eapply ext_trans; [apply ext_silent, Hs|exact Hc].
    + apply ext_silent. eapply ext_trans; [exact Hs|apply refresh_failed_silent].
  - now apply ext_refl.
Qed.

(** X12. The device list: an answered [getDevices] resolves with the
    [items] of the body when that is truthy and with the empty array when
    it is missing or falsy, so never with a falsy value; it rejects, with a
    type error, exactly when the body is null or undefined. *)
Theorem device_list_outcome (isRetryAllowed : string -> bool) (rid : nat) (cfg : Config)
  (data : value) (st : State) :
  inflight st !! rid = Some (cfg, KDevices) ->
  (nullish data = false ->
   exists items,
     trace (on_response isRetryAllowed rid (HOk data) st) =
       Settle rid (Ok items) :: ClientSettle rid (Ok data) :: trace st
     /\ truthy items = true
     /\ (truthy (opt_get data "items") = true -> items = opt_get data "items")
     /\ (truthy (opt_get data "items") = false -> items = VArr []))
  /\ (nullish data = true ->
      trace (on_response isRetryAllowed rid (HOk data) st) =
        Settle rid (Err ETypeError) :: Log DevicesFailed
          :: ClientSettle rid (Ok data) :: trace st)
  /\ inflight (on_response isRetryAllowed rid (HOk data) st) = delete rid (inflight st)
  /\ cache (on_response isRetryAllowed rid (HOk data) st) = cache st.
Proof.
  intros Hin. unfold on_response. rewrite Hin. unfold settle.
  cbn [mbind Result_bind]. unfold member, opt_get.
  split; [|split].
  - intros Hn. destruct (get data "items") as [x|] eqn:E.
    + exists (or_else x (VArr [])). cbn [default]. proj. unfold or_else.
      destruct (truthy x) eqn:Ht; repeat split; auto; unfold id; rewrite Ht;
        discriminate.
    + destruct data; discriminate.
  - intros Hn. destruct data; try discriminate; reflexivity.
  - destruct (get data "items"); split; reflexivity.
Qed.

Lemma device_list_outcome_witness :
  trace (on_response (fun _ => true) 0%nat (HOk (VObj [])) (fst (getDevices initial))) =
  Settle 0%nat (Ok (VArr [])) :: ClientSettle 0%nat (Ok (VObj []))
    :: trace (fst (getDevices initial)).
Proof.
  destruct (device_list_outcome (fun _ => true) 0%nat (new_request Devices) (VObj [])
              (fst (getDevices initial))) as (H & _).
  - vm_compute. reflexivity.
  - destruct (H eq_refl) as (items & Ht & _ & _ & He). rewrite Ht, He; reflexivity.
Defined.

Lemma strict_eq_str_true r s :
  strict_eq_str r s = Ok true <-> r = Ok (VStr s).
Proof.
  unfold strict_eq_str. destruct r as [v|e]; cbn [mbind Result_bind].
  - destruct v; try (split; intros H; discriminate).
    split; intros H.
    + injection H as H. apply String.eqb_eq in H. now subst.
    + injection H as H. subst. now rewrite String.eqb_refl.
  - split; intros H; discriminate.
Qed.

Lemma strict_eq_str_total v s : exists b, strict_eq_str (Ok v) s = Ok b.
Proof. unfold strict_eq_str. cbn [mbind Result_bind]. eauto. Qed.

Lemma getCap_reported body capability attribute def :
  _getCap (Ok (status_snapshot body)) capability attribute def =
  Ok (if nullish (reported body capability attribute) then def
      else reported body capability attribute).
Proof. apply getCap_snapshot. Qed.

Lemma strict_getter body capability attribute s :
  s <> "off" ->
  (exists b, strict_eq_str (_getCap (Ok (status_snapshot body)) capability attribute
                              (VStr "off")) s = Ok b)
  /\ (strict_eq_str (_getCap (Ok (status_snapshot body)) capability attribute
                       (VStr "off")) s = Ok true
      <-> reported body capability attribute = VStr s).
Proof.
  intros Hs. rewrite getCap_reported. split; [apply strict_eq_str_total|].
  rewrite strict_eq_str_true.
  destruct (reported body capability attribute); cbn [nullish];
    split; intros H; try discriminate; try exact H;
    try (injection H as H; congruence).
Qed.

(** X13. The boolean getters never throw on a fetched snapshot and are
    strict: [getPower] is true exactly when the reported switch value is
    the string on, [getWindFree] exactly when the optional mode is the
    string windFree, [getAutoClean] exactly when the auto-cleaning mode is
    the string on; any other value, a missing one included, gives false.
    A failed status read fails the getter with the same error. *)
Theorem getters_strict (body : value) :
  ((exists b, getPower (Ok (status_snapshot body)) = Ok b)
   /\ (getPower (Ok (status_snapshot body)) = Ok true
       <-> reported body "switch" "switch" = VStr "on"))
  /\ ((exists b, getWindFree (Ok (status_snapshot body)) = Ok b)
      /\ (getWindFree (Ok (status_snapshot body)) = Ok true
          <-> reported body "custom.airConditionerOptionalMode" "acOptionalMode"
              = VStr "windFree"))
  /\ ((exists b, getAutoClean (Ok (status_snapshot body)) = Ok b)
      /\ (getAutoClean (Ok (status_snapshot body)) = Ok true
          <-> reported body "custom.autoCleaningMode" "autoCleaningMode" = VStr "on"))
  /\ (forall e, getPower (Err e) = Err e /\ getWindFree (Err e) = Err e
                /\ getAutoClean (Err e) = Err e).
Proof.
  unfold getPower, getWindFree, getAutoClean.
  split; [|split; [|split]]; try (apply strict_getter; discriminate).
  intros e. repeat split.
Qed.

Lemma flag_of_getter (r : Result bool) (b : bool) (word : string) (x : value) :
  (exists b', r = Ok b') ->
  (r = Ok true <-> x = VStr word) ->
  x = VStr (if b then word else "off") ->
  word <> "off" ->
  as_flag r = Ok (if b then 1 else 0).
Proof.
  intros [b' Hb'] Hiff Hx Hw. unfold as_flag. rewrite Hb'. cbn [mbind Result_bind].
  destruct b.
  - apply Hiff in Hx. rewrite Hb' in Hx. injection Hx as ->. reflexivity.
  - destruct b'; [|reflexivity].
    apply Hiff in Hb'. rewrite Hb' in Hx. injection Hx as Hx. congruence.
Qed.

Lemma posted_command deviceId command st :
  posted (fst (sendCommand deviceId command st)) (next_id st) =
  Some (match command with VArr _ => command | _ => VArr [command] end).
Proof.
  unfold posted. rewrite sendCommand_eq. cbn [fst].
  rewrite client_inflight, lookup_insert_eq.
  destruct (inject_fields (tokens (set_next_id (S (next_id st))
                                     (set_cache (LRU.delete (cache_key deviceId) (cache st)) st)))
              (new_request (DeviceCommands deviceId
                 (match command with VArr _ => command | _ => VArr [command] end))))
    as (E & _).
  rewrite E. reflexivity.
Qed.

(** X14. HomeKit round trip.  Writing 0 or 1 to Active, SwingMode or
    LockPhysicalControls posts one command; once the device reports the
    word that command carries, reading the characteristic gives the number
    that was written.  The current state reads COOLING exactly when Active
    reads 1, and INACTIVE otherwise. *)
Theorem homekit_round_trip (deviceId : string) (v : Z) (body : value) (st : State)
  (INACTIVE COOLING : Z) :
  v = 0 \/ v = 1 ->
  (forall w, posted (fst (Active_setter deviceId (VNum v) st)) (next_id st) =
               Some (VArr [w]) ->
             reported body "switch" "switch" = opt_get w "command" ->
             Active_getter (Ok (status_snapshot body)) = Ok v)
  /\ (forall w, posted (fst (SwingMode_setter deviceId (VNum v) st)) (next_id st) =
                  Some (VArr [w]) ->
                reported body "custom.airConditionerOptionalMode" "acOptionalMode" =
                  opt_get (opt_get w "arguments") "0" ->
                SwingMode_getter (Ok (status_snapshot body)) = Ok v)
  /\ (forall w, posted (fst (LockPhysicalControls_setter deviceId (VNum v) st))
                  (next_id st) = Some (VArr [w]) ->
                reported body "custom.autoCleaningMode" "autoCleaningMode" =
                  opt_get (opt_get w "arguments") "0" ->
                LockPhysicalControls_getter (Ok (status_snapshot body)) = Ok v)
  /\ (exists w, posted (fst (Active_setter deviceId (VNum v) st)) (next_id st) =
                  Some (VArr [w]))
  /\ (exists w, posted (fst (SwingMode_setter deviceId (VNum v) st)) (next_id st) =
                  Some (VArr [w]))
  /\ (exists w, posted (fst (LockPhysicalControls_setter deviceId (VNum v) st))
                  (next_id st) = Some (VArr [w]))
  /\ CurrentHeaterCoolerState_getter INACTIVE COOLING (Ok (status_snapshot body)) =
     (a ← Active_getter (Ok (status_snapshot body));
      Ok (if Z.eqb a 1 then COOLING else INACTIVE)).
Proof.
  intros Hv.
  unfold Active_setter, SwingMode_setter, LockPhysicalControls_setter,
    setPower, setWindFree, setAutoClean.
  rewrite !posted_command.
  unfold Active_getter, SwingMode_getter, LockPhysicalControls_getter.
  assert (Hon : "on" <> "off") by discriminate.
  assert (Hwf : "windFree" <> "off") by discriminate.
  destruct (strict_getter body "switch" "switch" "on" Hon) as (T1 & G1).
  destruct (strict_getter body "custom.airConditionerOptionalMode" "acOptionalMode"
              "windFree" Hwf) as (T2 & G2).
  destruct (strict_getter body "custom.autoCleaningMode" "autoCleaningMode" "on" Hon)
    as (T3 & G3).
  fold (getPower (Ok (status_snapshot body))) in T1, G1.
  fold (getWindFree (Ok (status_snapshot body))) in T2, G2.
  fold (getAutoClean (Ok (status_snapshot body))) in T3, G3.
  assert (Hflag : v = if is_one (VNum v) then 1 else 0)
    by (destruct Hv as [-> | ->]; reflexivity).
  repeat split.
  - intros w Hw Hr. injection Hw as <-. rewrite Hflag at 1.
    apply (flag_of_getter _ _ "on" _ T1 G1); [|discriminate].
    rewrite Hr. destruct Hv as [-> | ->]; reflexivity.
  - intros w Hw Hr. injection Hw as <-. rewrite Hflag at 1.
    apply (flag_of_getter _ _ "windFree" _ T2 G2); [|discriminate].
    rewrite Hr. destruct Hv as [-> | ->]; reflexivity.
  - intros w Hw Hr. injection Hw as <-. rewrite Hflag at 1.
    apply (flag_of_getter _ _ "on" _ T3 G3); [|discriminate].
    rewrite Hr. destruct Hv as [-> | ->]; reflexivity.
  - eexists. reflexivity.
  - eexists. reflexivity.
  - eexists. reflexivity.
  - unfold CurrentHeaterCoolerState_getter, as_flag. destruct T1 as [b ->].
    cbn [mbind Result_bind]. destruct b; reflexivity.
Qed.

Lemma homekit_round_trip_witness :
  Active_getter
    (Ok (status_snapshot
           (VObj [("components", VObj [("main",
              VObj [("switch", VObj [("switch", VObj [("value", VStr "on")])])])])])))
  = Ok 1.
Proof.
  destruct (homekit_round_trip "ac1" 1
              (VObj [("components", VObj [("main",
                 VObj [("switch", VObj [("switch", VObj [("value", VStr "on")])])])])])
              initial 0 3 (or_intror eq_refl)) as (H & _).
  apply (H (setPower_command (VBool true))); reflexivity.
Defined.

(** ** Every request settles once *)



























